(** * The S2I build orchestrator of [pkg/build/builder/sti.go]

    A shallow embedding of [S2IBuilder.Build] and of its helpers
    ([scriptProxyConfig], [s2iBuildLabels], [getAssembleUser],
    [extractUser], [pullImage], [pushImage], ...), followed by the
    properties of the orchestrator that the specification states.

    Go strings are byte strings ([string]); Go maps with string keys are
    [gmap string _]; a Go pair [(value, err)] is a pair whose second
    component is an [option error]; a nil pointer is [None]. *)

From Stdlib Require Import String Ascii List ZArith.
From stdpp Require Import base option list strings gmap.

Local Open Scope string_scope.

(** ** Go's [strings] package, the part the builder calls *)

Module GoStrings.

(** [strings.HasPrefix s p]. *)
Definition HasPrefix (s p : string) : bool := String.prefix p s.

(** [strings.Contains s substr]. *)
Fixpoint Contains (s substr : string) : bool :=
  match s with
  | EmptyString => HasPrefix EmptyString substr
  | String _ s' => HasPrefix s substr || Contains s' substr
  end.

(** [strings.Cut s sep] for a non-empty [sep]: the text before and after
    the first occurrence of [sep]. *)
Fixpoint Cut (s sep : string) : option (string * string) :=
  if HasPrefix s sep then Some (EmptyString, String.substring (String.length sep) (String.length s - String.length sep) s)
  else match s with
       | EmptyString => None
       | String c s' =>
           match Cut s' sep with
           | Some (before, after) => Some (String c before, after)
           | None => None
           end
       end.

(** [strings.SplitN s sep 2] for a non-empty [sep]. *)
Definition SplitN2 (s sep : string) : list string :=
  match Cut s sep with
  | Some (before, after) => [before; after]
  | None => [s]
  end.

(** [strings.ReplaceAll s old new] for a non-empty [old]: the occurrences
    of [old] are found left to right and do not overlap.  [skip] counts
    the bytes of the occurrence under the cursor that are still to be
    dropped. *)
Fixpoint replaceFrom (skip : nat) (s old new : string) : string :=
  match s with
  | EmptyString => EmptyString
  | String c s' =>
      match skip with
      | S k => replaceFrom k s' old new
      | O =>
          if HasPrefix s old
          then new +:+ replaceFrom (String.length old - 1) s' old new
          else String c (replaceFrom 0 s' old new)
      end
  end.

Definition ReplaceAll (s old new : string) : string := replaceFrom 0 s old new.


End GoStrings.

(** ** API objects

    The part of the build object ([buildapiv1.Build]), of the S2I
    configuration ([s2iapi.Config]) and of the container engine's types
    that [sti.go] reads or writes.  [BuildPhase] and [StatusReason] are
    string types in the API, as here. *)

Definition error := string.
Definition Time := Z.

Record EnvVar := { env_Name : string; env_Value : string }.
Record ImageLabel := { lbl_Name : string; lbl_Value : string }.
Record ObjectReference := { ref_Kind : string; ref_Name : string }.
Record SecretBuildSource := { Secret_Name : string; Secret_DestinationDir : string }.
Record ConfigMapBuildSource := { ConfigMap_Name : string; ConfigMap_DestinationDir : string }.
Record GitBuildSource := { Git_URI : string; Git_Ref : string }.
Record BuildPostCommitSpec :=
  { pc_Command : list string; pc_Args : list string; pc_Script : string }.

Record SourceBuildStrategy := {
  From : ObjectReference;
  Scripts : string;
  Incremental : option bool;
  ForcePull : bool;
  Env : list EnvVar
}.

Record BuildSource := {
  Git : option GitBuildSource;
  ContextDir : string;
  Secrets : list SecretBuildSource;
  ConfigMaps : list ConfigMapBuildSource
}.

Record BuildOutput := { To : option ObjectReference; ImageLabels : list ImageLabel }.

Record BuildSpec := {
  SourceStrategy : option SourceBuildStrategy;
  Source : BuildSource;
  Output : BuildOutput;
  PostCommit : BuildPostCommitSpec
}.

Record StepInfo := { step_Name : string; step_StartTime : Time; step_DurationMilliseconds : Z }.
Record StageInfo := {
  stage_Name : string; stage_StartTime : Time; stage_DurationMilliseconds : Z;
  stage_Steps : list StepInfo
}.

Record BuildStatusOutputTo := { ImageDigest : string }.

Record BuildStatus := {
  Phase : string;
  Reason : string;
  Message : string;
  OutputDockerImageReference : string;
  Output_To : option BuildStatusOutputTo;
  Stages : list StageInfo
}.

Record Build := { Name : string; Namespace : string; Spec : BuildSpec; Status : BuildStatus }.

Definition BuildPhaseFailed : string := "Failed".
Definition StatusReasonGenericBuildFailed : string := "GenericBuildFailed".
Definition StatusReasonPushImageToRegistryFailed : string := "PushImageToRegistryFailed".

Definition StagePullImages : string := "PullImages".
Definition StepPullBaseImage : string := "PullBaseImage".
Definition StepPullInputImage : string := "PullInputImage".
Definition StageBuild : string := "Build".
Definition StepDockerBuild : string := "DockerBuild".
Definition StagePushImage : string := "PushImage".
Definition StepPushImage : string := "PushImage".

(** In-place updates of the build object, one per assignment of [Build]. *)

Definition set_Status (f : BuildStatus -> BuildStatus) (b : Build) : Build :=
  {| Name := Name b; Namespace := Namespace b; Spec := Spec b; Status := f (Status b) |}.

Definition with_OutputDockerImageReference (r : string) (st : BuildStatus) : BuildStatus :=
  {| Phase := Phase st; Reason := Reason st; Message := Message st;
     OutputDockerImageReference := r; Output_To := Output_To st; Stages := Stages st |}.

Definition with_failure (reason message : string) (st : BuildStatus) : BuildStatus :=
  {| Phase := BuildPhaseFailed; Reason := reason; Message := message;
     OutputDockerImageReference := OutputDockerImageReference st;
     Output_To := Output_To st; Stages := Stages st |}.

Definition with_Output_To (d : BuildStatusOutputTo) (st : BuildStatus) : BuildStatus :=
  {| Phase := Phase st; Reason := Reason st; Message := Message st;
     OutputDockerImageReference := OutputDockerImageReference st;
     Output_To := Some d; Stages := Stages st |}.

Definition with_Stages (l : list StageInfo) (st : BuildStatus) : BuildStatus :=
  {| Phase := Phase st; Reason := Reason st; Message := Message st;
     OutputDockerImageReference := OutputDockerImageReference st;
     Output_To := Output_To st; Stages := l |}.

Definition with_ForcePull (v : bool) (ss : SourceBuildStrategy) : SourceBuildStrategy :=
  {| From := From ss; Scripts := Scripts ss; Incremental := Incremental ss;
     ForcePull := v; Env := Env ss |}.

(** [s.build.Spec.Strategy.SourceStrategy.ForcePull = v]; the strategy is
    known to be non-nil wherever [Build] assigns it. *)
Definition set_ForcePull (v : bool) (b : Build) : Build :=
  {| Name := Name b; Namespace := Namespace b;
     Spec := {| SourceStrategy := with_ForcePull v <$> SourceStrategy (Spec b);
                Source := Source (Spec b); Output := Output (Spec b);
                PostCommit := PostCommit (Spec b) |};
     Status := Status b |}.

(** *** Source information, S2I configuration, engine types *)

Record SourceInfo := {
  si_Ref : string; si_CommitID : string; si_Date : string;
  si_AuthorName : string; si_AuthorEmail : string;
  si_Message : string; si_Location : string; si_ContextDir : string
}.

Definition with_ContextDir (d : string) (i : SourceInfo) : SourceInfo :=
  {| si_Ref := si_Ref i; si_CommitID := si_CommitID i; si_Date := si_Date i;
     si_AuthorName := si_AuthorName i; si_AuthorEmail := si_AuthorEmail i;
     si_Message := si_Message i; si_Location := si_Location i; si_ContextDir := d |}.

(** The zero value [&git.SourceInfo{}]. *)
Definition emptySourceInfo : SourceInfo :=
  {| si_Ref := ""; si_CommitID := ""; si_Date := ""; si_AuthorName := "";
     si_AuthorEmail := ""; si_Message := ""; si_Location := ""; si_ContextDir := "" |}.

Definition URL := string.
Record ProxyConfig := { HTTPProxy : option URL; HTTPSProxy : option URL }.
Record VolumeSpec := { vol_Source : string; vol_Destination : string; vol_Keep : bool }.
Record FailureReason := { fr_Reason : string; fr_Message : string }.
Record S2IStepInfo := { s2i_step_Name : string; s2i_step_StartTime : Time; s2i_step_DurationMilliseconds : Z }.
Record S2IStageInfo := { s2i_stage_Name : string; s2i_stage_Steps : list S2IStepInfo }.
Record BuildInfo := { bi_Stages : list S2IStageInfo; bi_FailureReason : FailureReason }.
Record Result := { res_BuildInfo : BuildInfo }.

Record Config := {
  PreserveWorkingDir : bool;
  WorkingDir : string;
  DockerConfig_Endpoint : string;
  DockerCfgPath : string;
  LabelNamespace : string;
  ScriptsURL : string;
  BuilderImage : string;
  BuilderPullPolicy : string;
  cfg_Incremental : bool;
  IncrementalFromTag : string;
  Environment : list (string * string);
  Labels : gmap string string;
  Source_Path : string;
  cfg_ContextDir : string;
  cfg_SourceInfo : option SourceInfo;
  ForceCopy : bool;
  Injections : list VolumeSpec;
  AsDockerfile : string;
  ScriptDownloadProxyConfig : option ProxyConfig;
  BlockOnBuild : bool;
  KeepSymlinks : bool;
  AssembleUser : string;
  Destination : string;
  ImageScriptsURL : string;
  AllowedUIDs : list (Z * Z)
}.

Record ContainerConfig := { User : string; cc_Labels : gmap string string }.
Record Image := { img_ContainerConfig : ContainerConfig }.

Record PullImageOptions := { pull_Repository : string; pull_Tag : string }.
Record PushImageOptions := { push_Name : string; push_Tag : string }.
Record AuthConfiguration := { auth_Username : string; auth_Password : string; auth_ServerAddress : string }.
Record CGroupLimits := {
  MemoryLimitBytes : Z; CPUShares : Z; CPUPeriod : Z; CPUQuota : Z;
  MemorySwap : Z; Parent : string
}.

Record BuildImageOptions := {
  opt_Name : string;
  opt_RmTmpContainer : bool;
  opt_ForceRmTmpContainer : bool;
  opt_Dockerfile : string;
  opt_NoCache : bool;
  opt_Pull : bool;
  opt_ContextDir : string;
  opt_CPUPeriod : Z; opt_CPUQuota : Z; opt_CPUShares : Z;
  opt_Memory : Z; opt_Memswap : Z; opt_CgroupParent : string;
  opt_AuthConfigs : gmap string AuthConfiguration
}.

Record HTTPResponse := { StatusCode : Z }.

(** Assignments to the fields of [config] that [Build] makes after the
    configuration has been assembled. *)

(** [config.Incremental = v] *)
Definition set_cfg_Incremental (v : bool) (c : Config) : Config :=
  {| PreserveWorkingDir := PreserveWorkingDir c;
     WorkingDir := WorkingDir c;
     DockerConfig_Endpoint := DockerConfig_Endpoint c;
     DockerCfgPath := DockerCfgPath c;
     LabelNamespace := LabelNamespace c;
     ScriptsURL := ScriptsURL c;
     BuilderImage := BuilderImage c;
     BuilderPullPolicy := BuilderPullPolicy c;
     cfg_Incremental := v;
     IncrementalFromTag := IncrementalFromTag c;
     Environment := Environment c;
     Labels := Labels c;
     Source_Path := Source_Path c;
     cfg_ContextDir := cfg_ContextDir c;
     cfg_SourceInfo := cfg_SourceInfo c;
     ForceCopy := ForceCopy c;
     Injections := Injections c;
     AsDockerfile := AsDockerfile c;
     ScriptDownloadProxyConfig := ScriptDownloadProxyConfig c;
     BlockOnBuild := BlockOnBuild c;
     KeepSymlinks := KeepSymlinks c;
     AssembleUser := AssembleUser c;
     Destination := Destination c;
     ImageScriptsURL := ImageScriptsURL c;
     AllowedUIDs := AllowedUIDs c |}.

(** [config.IncrementalFromTag = v] *)
Definition set_IncrementalFromTag (v : string) (c : Config) : Config :=
  {| PreserveWorkingDir := PreserveWorkingDir c;
     WorkingDir := WorkingDir c;
     DockerConfig_Endpoint := DockerConfig_Endpoint c;
     DockerCfgPath := DockerCfgPath c;
     LabelNamespace := LabelNamespace c;
     ScriptsURL := ScriptsURL c;
     BuilderImage := BuilderImage c;
     BuilderPullPolicy := BuilderPullPolicy c;
     cfg_Incremental := cfg_Incremental c;
     IncrementalFromTag := v;
     Environment := Environment c;
     Labels := Labels c;
     Source_Path := Source_Path c;
     cfg_ContextDir := cfg_ContextDir c;
     cfg_SourceInfo := cfg_SourceInfo c;
     ForceCopy := ForceCopy c;
     Injections := Injections c;
     AsDockerfile := AsDockerfile c;
     ScriptDownloadProxyConfig := ScriptDownloadProxyConfig c;
     BlockOnBuild := BlockOnBuild c;
     KeepSymlinks := KeepSymlinks c;
     AssembleUser := AssembleUser c;
     Destination := Destination c;
     ImageScriptsURL := ImageScriptsURL c;
     AllowedUIDs := AllowedUIDs c |}.

(** [config.AssembleUser = v] *)
Definition set_AssembleUser (v : string) (c : Config) : Config :=
  {| PreserveWorkingDir := PreserveWorkingDir c;
     WorkingDir := WorkingDir c;
     DockerConfig_Endpoint := DockerConfig_Endpoint c;
     DockerCfgPath := DockerCfgPath c;
     LabelNamespace := LabelNamespace c;
     ScriptsURL := ScriptsURL c;
     BuilderImage := BuilderImage c;
     BuilderPullPolicy := BuilderPullPolicy c;
     cfg_Incremental := cfg_Incremental c;
     IncrementalFromTag := IncrementalFromTag c;
     Environment := Environment c;
     Labels := Labels c;
     Source_Path := Source_Path c;
     cfg_ContextDir := cfg_ContextDir c;
     cfg_SourceInfo := cfg_SourceInfo c;
     ForceCopy := ForceCopy c;
     Injections := Injections c;
     AsDockerfile := AsDockerfile c;
     ScriptDownloadProxyConfig := ScriptDownloadProxyConfig c;
     BlockOnBuild := BlockOnBuild c;
     KeepSymlinks := KeepSymlinks c;
     AssembleUser := v;
     Destination := Destination c;
     ImageScriptsURL := ImageScriptsURL c;
     AllowedUIDs := AllowedUIDs c |}.

(** [config.Destination = v] *)
Definition set_Destination (v : string) (c : Config) : Config :=
  {| PreserveWorkingDir := PreserveWorkingDir c;
     WorkingDir := WorkingDir c;
     DockerConfig_Endpoint := DockerConfig_Endpoint c;
     DockerCfgPath := DockerCfgPath c;
     LabelNamespace := LabelNamespace c;
     ScriptsURL := ScriptsURL c;
     BuilderImage := BuilderImage c;
     BuilderPullPolicy := BuilderPullPolicy c;
     cfg_Incremental := cfg_Incremental c;
     IncrementalFromTag := IncrementalFromTag c;
     Environment := Environment c;
     Labels := Labels c;
     Source_Path := Source_Path c;
     cfg_ContextDir := cfg_ContextDir c;
     cfg_SourceInfo := cfg_SourceInfo c;
     ForceCopy := ForceCopy c;
     Injections := Injections c;
     AsDockerfile := AsDockerfile c;
     ScriptDownloadProxyConfig := ScriptDownloadProxyConfig c;
     BlockOnBuild := BlockOnBuild c;
     KeepSymlinks := KeepSymlinks c;
     AssembleUser := AssembleUser c;
     Destination := v;
     ImageScriptsURL := ImageScriptsURL c;
     AllowedUIDs := AllowedUIDs c |}.

(** [config.ImageScriptsURL = v] *)
Definition set_ImageScriptsURL (v : string) (c : Config) : Config :=
  {| PreserveWorkingDir := PreserveWorkingDir c;
     WorkingDir := WorkingDir c;
     DockerConfig_Endpoint := DockerConfig_Endpoint c;
     DockerCfgPath := DockerCfgPath c;
     LabelNamespace := LabelNamespace c;
     ScriptsURL := ScriptsURL c;
     BuilderImage := BuilderImage c;
     BuilderPullPolicy := BuilderPullPolicy c;
     cfg_Incremental := cfg_Incremental c;
     IncrementalFromTag := IncrementalFromTag c;
     Environment := Environment c;
     Labels := Labels c;
     Source_Path := Source_Path c;
     cfg_ContextDir := cfg_ContextDir c;
     cfg_SourceInfo := cfg_SourceInfo c;
     ForceCopy := ForceCopy c;
     Injections := Injections c;
     AsDockerfile := AsDockerfile c;
     ScriptDownloadProxyConfig := ScriptDownloadProxyConfig c;
     BlockOnBuild := BlockOnBuild c;
     KeepSymlinks := KeepSymlinks c;
     AssembleUser := AssembleUser c;
     Destination := Destination c;
     ImageScriptsURL := v;
     AllowedUIDs := AllowedUIDs c |}.

(** [config.AllowedUIDs = v (the receiver of AllowedUIDs.Set)] *)
Definition set_AllowedUIDs (v : list (Z * Z)) (c : Config) : Config :=
  {| PreserveWorkingDir := PreserveWorkingDir c;
     WorkingDir := WorkingDir c;
     DockerConfig_Endpoint := DockerConfig_Endpoint c;
     DockerCfgPath := DockerCfgPath c;
     LabelNamespace := LabelNamespace c;
     ScriptsURL := ScriptsURL c;
     BuilderImage := BuilderImage c;
     BuilderPullPolicy := BuilderPullPolicy c;
     cfg_Incremental := cfg_Incremental c;
     IncrementalFromTag := IncrementalFromTag c;
     Environment := Environment c;
     Labels := Labels c;
     Source_Path := Source_Path c;
     cfg_ContextDir := cfg_ContextDir c;
     cfg_SourceInfo := cfg_SourceInfo c;
     ForceCopy := ForceCopy c;
     Injections := Injections c;
     AsDockerfile := AsDockerfile c;
     ScriptDownloadProxyConfig := ScriptDownloadProxyConfig c;
     BlockOnBuild := BlockOnBuild c;
     KeepSymlinks := KeepSymlinks c;
     AssembleUser := AssembleUser c;
     Destination := Destination c;
     ImageScriptsURL := ImageScriptsURL c;
     AllowedUIDs := v |}.

(** ** Collaborators

    What [sti.go] calls and does not define.  Library functions and the
    helpers of the builder package that live in other files are fields of
    [Externals]; the interfaces of the source ([DockerClient],
    [builderFactory], [validator]) and the process environment are
    classes over a type [W] of worlds: a call takes the world and returns
    its Go results with the next world. *)

Class Externals := {
  (** Go and third-party libraries *)
  TrimSpace : string -> string;
  base64_EncodeToString : string -> string;
  filepath_Clean : string -> string;
  filepath_Join : string -> string -> string;
  ParseRepositoryTag : string -> string * string;
  GenerateLabelsFromSourceInfo :
    gmap string string -> SourceInfo -> string -> gmap string string;
  EnvironmentList_Set : list (string * string) -> string -> list (string * string);
  AllowedUIDs_Set : list (Z * Z) -> string -> list (Z * Z) * option error;
  Node : Type;
  ParseDockerfile : string -> Node * option error;
  dockerfile_Write : Node -> string;
  (** helpers and constants of the builder packages *)
  ParseProxyURL : string -> option URL * option error;
  buildInfo : Build -> option SourceInfo -> list (string * string);
  toS2ISourceInfo : SourceInfo -> SourceInfo;
  buildPostCommit : BuildPostCommitSpec -> string;
  appendPostCommit : Node -> string -> Node * option error;
  reportPushFailure : error -> bool -> AuthConfiguration -> error;
  RecordStageAndStepInfo :
    list StageInfo -> string -> string -> Time -> Time -> list StageInfo;
  AppendStageAndStepInfo : list StageInfo -> list StageInfo -> list StageInfo;
  InputContentPath : string;
  defaultDockerfilePath : string;
  secretBuildSourceBaseMountPath : string;
  configMapBuildSourceBaseMountPath : string;
  StatusMessageGenericBuildFailed : string;
  StatusMessagePushImageToRegistryFailed : string;
  PullAuthType : string;
  PushAuthType : string;
  AllowedUIDsEnv : string;
  DefaultPushOrPullRetryCount : nat;
  DefaultPushOrPullRetryDelay : Z
}.

(** The label namespace, as the comment of [s2iBuildLabels] spells the
    commit-ref label: [io.openshift.build.commit.ref]. *)
Definition DefaultDockerLabelNamespace : string := "io.openshift.".

Definition AssembleUserLabel : string := "io.openshift.s2i.assemble-user".
Definition DestinationLabel : string := "io.openshift.s2i.destination".
Definition ScriptsURLLabel : string := "io.openshift.s2i.scripts-url".
Definition PullAlways : string := "always".

Class DockerClient (W : Type) := {
  InspectImage : string -> W -> (option Image * option error) * W;
  PullImage : PullImageOptions -> list string -> W -> option error * W;
  BuildImage : BuildImageOptions -> W -> option error * W;
  PushImage : PushImageOptions -> AuthConfiguration -> W -> (string * option error) * W;
  (** the package helper [tagImage docker buildTag pushTag] *)
  tagImage : string -> string -> W -> option error * W
}.

Class builderFactory (W : Type) := {
  S2IBuilderHandle : Type;
  (** [Builder config overrides]: the S2I builder (nil is [None]), the
      build info and the error *)
  Builder : Config -> W -> (option S2IBuilderHandle * BuildInfo * option error) * W;
  (** [builder.Build config] *)
  builder_Build : S2IBuilderHandle -> Config -> W -> (option Result * option error) * W
}.

Class validator (W : Type) := {
  (** the messages of the validation errors *)
  ValidateConfig : Config -> W -> list string * W
}.

Class Platform (W : Type) := {
  readSourceInfo : W -> (option SourceInfo * option error) * W;
  randomBuildTag : string -> string -> W -> string * W;
  Getenv : string -> W -> string * W;
  GetDockerAuthSearchPaths : string -> W -> list string * W;
  GetDockerAuth : string -> string -> W -> (AuthConfiguration * bool) * W;
  mergeNodeCredentialsDockerAuth :
    string -> W -> option (gmap string AuthConfiguration) * W;
  Now : W -> Time * W;
  Sleep : Z -> W -> unit * W;
  (** [os.Stat path] followed by [os.IsNotExist] on its error *)
  Stat_IsNotExist : string -> W -> bool * W;
  ReadFile : string -> W -> (string * option error) * W;
  overwriteFile : string -> string -> W -> option error * W;
  (** [exec.Command(name, args...).Output()] *)
  exec_Output : string -> list string -> W -> (string * option error) * W;
  uuid_New : W -> string * W;
  (** [client.Do] on a POST of [body] to [url]: response (nil is [None])
      and error *)
  http_Post : string -> string -> W -> (option HTTPResponse * option error) * W;
  HandleBuildStatusUpdate : Build -> W -> unit * W
}.

(** ** The run of one build

    [Build] mutates the build object and the timing context and calls its
    collaborators; a run is a function from [State] to an [outcome] and
    the next [State].  The trace lists the calls that are visible from
    outside, oldest first. *)

Inductive Event :=
| EvPullImage (o : PullImageOptions) (searchPaths : list string)
| EvValidateConfig (c : Config)
| EvBuilder (c : Config)
| EvBuilderBuild (c : Config)
| EvOverwriteFile (path content : string)
| EvBuildImage (o : BuildImageOptions)
| EvExec (name : string) (args : list string)
| EvSleep (seconds : Z)
| EvTagImage (buildTag pushTag : string)
| EvPushImage (o : PushImageOptions) (a : AuthConfiguration)
| EvHTTPPost (url body : string)
| EvStatusUpdate (b : Build).

(** The [return err] statements of [Build], in source order.  The label
    is carried next to the returned error; Go returns the error alone. *)
Inductive ErrSite :=
| SiteSourceStrategy
| SiteSourceInfo
| SiteProxyConfig
| SitePullBaseImage
| SiteAssembleUser
| SiteImageLabels
| SiteAllowedUIDs
| SiteValidateConfig
| SiteBuilderFactory
| SiteAssemble
| SiteReadDockerfile
| SiteParseDockerfile
| SiteAppendPostCommit
| SiteBuildImage
| SiteExtractEnv
| SiteExtractWorkdir
| SiteCwBuild
| SiteCwBuildImage
| SiteTagImage
| SitePushImage.

Inductive outcome (A : Type) :=
| Ok (a : A)
| Err (site : ErrSite) (e : error)
| Panic (msg : string).

Arguments Ok {A} a.
Arguments Err {A} site e.
Arguments Panic {A} msg.

Definition nilDereference : string :=
  "runtime error: invalid memory address or nil pointer dereference".

Section Builder.

Context {ext : Externals} {W : Type} {docker : DockerClient W}
  {factory : builderFactory W} {val : validator W} {platform : Platform W}.

Record State := {
  st_build : Build;            (* the object behind [s.build] *)
  st_stages : list StageInfo;  (* the stages held by the timing context *)
  st_world : W;
  st_trace : list Event
}.

Definition M (A : Type) : Type := State -> outcome A * State.

Definition ret {A} (a : A) : M A := fun s => (Ok a, s).

Definition bind {A B} (m : M A) (k : A -> M B) : M B :=
  fun s =>
    match m s with
    | (Ok a, s') => k a s'
    | (Err site e, s') => (Err site e, s')
    | (Panic msg, s') => (Panic msg, s')
    end.

Definition fail {A} (site : ErrSite) (e : error) : M A := fun s => (Err site e, s).
Definition panic {A} (msg : string) : M A := fun s => (Panic msg, s).

Definition getBuild : M Build := fun s => (Ok (st_build s), s).

Definition modifyBuild (f : Build -> Build) : M unit :=
  fun s => (Ok tt, {| st_build := f (st_build s); st_stages := st_stages s;
                      st_world := st_world s; st_trace := st_trace s |}).

Definition getStages : M (list StageInfo) := fun s => (Ok (st_stages s), s).

(** [timing.RecordNewStep ctx stage step start end]. *)
Definition RecordNewStep (stage step : string) (startTime endTime : Time) : M unit :=
  fun s => (Ok tt, {| st_build := st_build s;
                      st_stages := RecordStageAndStepInfo (st_stages s) stage step startTime endTime;
                      st_world := st_world s; st_trace := st_trace s |}).

(** A call of a collaborator. *)
Definition call {A} (f : W -> A * W) : M A :=
  fun s => let '(a, w) := f (st_world s) in
           (Ok a, {| st_build := st_build s; st_stages := st_stages s;
                     st_world := w; st_trace := st_trace s |}).

Definition emit (ev : Event) : M unit :=
  fun s => (Ok tt, {| st_build := st_build s; st_stages := st_stages s;
                      st_world := st_world s; st_trace := st_trace s ++ [ev] |}).

Notation "'let*' x ':=' m 'in' k" := (bind m (fun x => k))
  (at level 10, x name, m at level 100, k at level 200).
Notation "'let*' ' pat ':=' m 'in' k" :=
  (bind m (fun x => match x with pat => k end))
  (at level 10, pat pattern, m at level 100, k at level 200).
Notation "m ;;; k" := (bind m (fun _ => k))
  (at level 100, right associativity).

(** [s.build.Spec.Strategy.SourceStrategy], dereferenced. *)
Definition getStrategy : M SourceBuildStrategy :=
  let* b := getBuild in
  match SourceStrategy (Spec b) with
  | Some ss => ret ss
  | None => panic nilDereference
  end.

Definition statusUpdate : M unit :=
  let* b := getBuild in
  emit (EvStatusUpdate b) ;;;
  call (HandleBuildStatusUpdate b).

(** *** Volumes *)

Definition makeVolumeSpec (name destination : string) (isSecret : bool) (mountPath : string) : VolumeSpec :=
  {| vol_Source := filepath_Join mountPath name;
     vol_Destination := destination;
     vol_Keep := negb isSecret |}.

Definition injectConfigMaps (configMaps : list ConfigMapBuildSource) : list VolumeSpec :=
  map (fun c => makeVolumeSpec (ConfigMap_Name c) (ConfigMap_DestinationDir c) false
                  configMapBuildSourceBaseMountPath) configMaps.

Definition injectSecrets (secrets : list SecretBuildSource) : list VolumeSpec :=
  map (fun c => makeVolumeSpec (Secret_Name c) (Secret_DestinationDir c) true
                  secretBuildSourceBaseMountPath) secrets.

(** *** Environment, labels, proxy *)

Definition buildEnvVars (build : Build) (sourceInfo : option SourceInfo) : list (string * string) :=
  fold_left (fun envVars item => EnvironmentList_Set envVars (fst item +:+ "=" +:+ snd item))
            (buildInfo build sourceInfo) [].

Definition commitRefLabel : string := DefaultDockerLabelNamespace +:+ "build.commit.ref".

(** The loop [for _, lbl := range build.Spec.Output.ImageLabels]. *)
Definition applyImageLabels (labels : gmap string string) (l : list ImageLabel) : gmap string string :=
  fold_left (fun m lbl => <[lbl_Name lbl := lbl_Value lbl]> m) l labels.

Definition s2iBuildLabels (build : Build) (sourceInfo : option SourceInfo) : gmap string string :=
  let labels : gmap string string := ∅ in
  let sourceInfo := match sourceInfo with Some i => i | None => emptySourceInfo end in
  let sourceInfo :=
    if (0 <? String.length (ContextDir (Source (Spec build))))%nat
    then with_ContextDir (ContextDir (Source (Spec build))) sourceInfo
    else sourceInfo in
  let labels := GenerateLabelsFromSourceInfo labels (toS2ISourceInfo sourceInfo)
                  DefaultDockerLabelNamespace in
  let labels :=
    match Git (Source (Spec build)) with
    | Some g => if negb (String.eqb (Git_Ref g) "")
                then <[commitRefLabel := Git_Ref g]> labels
                else labels
    | None => labels
    end in
  applyImageLabels labels (ImageLabels (Output (Spec build))).

(** The loop of [scriptProxyConfig] over the strategy environment: the
    pair (httpProxy, httpsProxy) after each variable. *)
Definition scanProxyEnv (acc : string * string) (env : EnvVar) : string * string :=
  let name := env_Name env in
  if String.eqb name "HTTP_PROXY" || String.eqb name "http_proxy"
  then (env_Value env, snd acc)
  else if String.eqb name "HTTPS_PROXY" || String.eqb name "https_proxy"
  then (fst acc, env_Value env)
  else acc.

Definition emptyProxyConfig : ProxyConfig := {| HTTPProxy := None; HTTPSProxy := None |}.

Definition scriptProxyConfig (env : list EnvVar) : option ProxyConfig * option error :=
  let '(httpProxy, httpsProxy) := fold_left scanProxyEnv env ("", "") in
  if (String.length httpProxy =? 0)%nat && (String.length httpsProxy =? 0)%nat
  then (None, None)
  else
    let config := emptyProxyConfig in
    let step1 :=
      if (0 <? String.length httpProxy)%nat
      then match ParseProxyURL httpProxy with
           | (_, Some err) => inr err
           | (proxyURL, None) => inl {| HTTPProxy := proxyURL; HTTPSProxy := HTTPSProxy config |}
           end
      else inl config in
    match step1 with
    | inr err => (None, Some err)
    | inl config =>
        if (0 <? String.length httpsProxy)%nat
        then match ParseProxyURL httpsProxy with
             | (_, Some err) => (None, Some err)
             | (proxyURL, None) =>
                 (Some {| HTTPProxy := HTTPProxy config; HTTPSProxy := proxyURL |}, None)
             end
        else (Some config, None)
    end.

(** *** Image introspection *)

Definition isImagePresent (imageTag : string) : M bool :=
  let* '(image, err) := call (InspectImage imageTag) in
  ret (match err, image with None, Some _ => true | _, _ => false end).

Definition getImageLabels (imageTag : string) : M (gmap string string * option error) :=
  let* '(image, err) := call (InspectImage imageTag) in
  match err with
  | Some e => ret (∅, Some e)
  | None =>
      match image with
      | Some img => ret (cc_Labels (img_ContainerConfig img), None)
      | None => panic nilDereference
      end
  end.

Definition extractUser (userSpec : string) : string :=
  if GoStrings.Contains userSpec ":"
  then TrimSpace (hd "" (GoStrings.SplitN2 userSpec ":"))
  else TrimSpace userSpec.

(** The user that [getAssembleUser] resolves from an inspected image. *)
Definition assembleUserOf (image : Image) : string :=
  let assembleUser := User (img_ContainerConfig image) in
  let assembleUser :=
    match cc_Labels (img_ContainerConfig image) !! AssembleUserLabel with
    | Some labelAssembleUser => labelAssembleUser
    | None => assembleUser
    end in
  extractUser assembleUser.

Definition getAssembleUser (imageTag : string) : M (string * option error) :=
  let* '(image, err) := call (InspectImage imageTag) in
  match err with
  | Some e => ret ("", Some e)
  | None =>
      match image with
      | Some img => ret (assembleUserOf img, None)
      | None => panic nilDereference
      end
  end.
(** *** Retried registry operations *)

(** Modelled from the spec: [retryImageAction], which another file of the
    package defines.  A bounded retry of a named fallible action: a
    success ends it at once; after a failure it backs off and tries
    again while retries remain; when they are exhausted the last error of
    the action is returned.  [A] is what the action's closure leaves in
    the variables it captures. *)
Fixpoint retryImageAction {A} (actionName : string) (retries : nat)
    (action : M (A * option error)) : M (A * option error) :=
  let* '(a, err) := action in
  match err with
  | None => ret (a, None)
  | Some e =>
      match retries with
      | O => ret (a, Some e)
      | S n =>
          call (Sleep DefaultPushOrPullRetryDelay) ;;;
          retryImageAction actionName n action
      end
  end.

(** Lines 529-537: the options of a pull of [name]. *)
Definition pullOptions (name : string) : PullImageOptions :=
  let '(repository, tag) := ParseRepositoryTag name in
  {| pull_Repository :=
       if String.eqb tag "" && GoStrings.Contains name "@" then name else repository;
     pull_Tag := tag |}.

Definition pullImage (name : string) (searchPaths : list string) : M (option error) :=
  let options := pullOptions name in
  let* '(_, err) :=
    retryImageAction "Pull" DefaultPushOrPullRetryCount
      (emit (EvPullImage options searchPaths) ;;;
       let* pullErr := call (PullImage options searchPaths) in
       ret (tt, pullErr)) in
  ret err.

(** Lines 549-553: the options of a push of [name]. *)
Definition pushOptions (name : string) : PushImageOptions :=
  let '(repository, tag) := ParseRepositoryTag name in
  {| push_Name := repository; push_Tag := tag |}.

Definition pushImage (name : string) (authConfig : AuthConfiguration) : M (string * option error) :=
  let options := pushOptions name in
  let* '(captured, _) :=
    retryImageAction "Push" DefaultPushOrPullRetryCount
      (emit (EvPushImage options authConfig) ;;;
       let* '(sha, err) := call (PushImage options authConfig) in
       ret ((sha, err), err)) in
  ret captured.

(** *** Attestation registration *)

Definition dquote : string := String "034"%char EmptyString.

Definition kernelCmdLine (cw_password cw_workdir cw_env : string) : string :=
  "KRUN_CFG=2:512 reboot=k panic=-1 panic_print=0 pci=off nomodules console=hvc0 rw no-kvmapf init=/bin/sh virtio_mmio.device=4K@0xd0000000:5 virtio_mmio.device=4K@0xd0001000:6 virtio_mmio.device=4K@0xd0002000:7 virtio_mmio.device=4K@0xd0003000:8 swiotlb=65536 KRUN_PASS="
  +:+ cw_password +:+ " KRUN_INIT=/usr/libexec/s2i/run KRUN_WORKDIR=" +:+ cw_workdir
  +:+ " " +:+ cw_env.

(** The value of the [name] field: [strings.ReplaceAll(pushTag, ":latest", "")]. *)
Definition registrationName (pushTag : string) : string :=
  GoStrings.ReplaceAll pushTag ":latest" "".

(** [jsonStr], given the values of its three fields. *)
Definition registrationJSON (sha name kernel_cmd_line : string) : string :=
  "{" +:+ dquote +:+ "sha" +:+ dquote +:+ ":" +:+ dquote +:+ sha
  +:+ dquote +:+ "," +:+ dquote +:+ "name" +:+ dquote +:+ ":" +:+ dquote +:+ name
  +:+ dquote +:+ "," +:+ dquote +:+ "kernel_cmd_line" +:+ dquote +:+ ":" +:+ dquote
  +:+ kernel_cmd_line +:+ dquote +:+ "}".

Definition registrationPayload (digest pushTag cw_password cw_workdir cw_env : string) : string :=
  registrationJSON digest (registrationName pushTag)
    (base64_EncodeToString (kernelCmdLine cw_password cw_workdir cw_env)).

Definition registrationURL : string :=
  "http://registration-attestation-server.attestation:8080/confidential/register-image".

(** Lines 496-508: the POST and [defer resp.Body.Close()].  The error of
    [client.Do] is only logged; the deferred call takes [resp.Body] at
    the [defer] statement, which dereferences [resp]. *)
Definition registerImage (digest pushTag cw_password cw_workdir cw_env : string) : M unit :=
  let jsonStr := registrationPayload digest pushTag cw_password cw_workdir cw_env in
  emit (EvHTTPPost registrationURL jsonStr) ;;;
  let* '(resp, err) := call (http_Post registrationURL jsonStr) in
  match resp with
  | Some _ => ret tt
  | None => panic nilDereference
  end.

(** *** [S2IBuilder.Build]

    The body of [Build] in source order, cut into blocks at the line
    numbers given.  [dockerSocket] and [cgLimits] are the fields of the
    receiver that are not behind a pointer to mutable data. *)

Section Build.

Variable dockerSocket : string.
Variable cgLimits : option CGroupLimits.

(** Lines 151-159: the push flag and the push tag. *)
Definition choosePushTag : M (bool * string) :=
  let* b := getBuild in
  let* push :=
    match To (Output (Spec b)) with
    | None =>
        modifyBuild (set_Status (with_OutputDockerImageReference (Name b))) ;;; ret false
    | Some to =>
        if (String.length (ref_Name to) =? 0)%nat
        then modifyBuild (set_Status (with_OutputDockerImageReference (Name b))) ;;; ret false
        else ret true
    end in
  let* b := getBuild in
  ret (push, OutputDockerImageReference (Status b)).

(** Lines 190-197. *)
Definition contextDirOf (b : Build) : string :=
  if negb (String.length (ContextDir (Source (Spec b))) =? 0)%nat
  then let contextDir := filepath_Clean (ContextDir (Source (Spec b))) in
       if String.eqb contextDir "." || String.eqb contextDir "/" then "" else contextDir
  else "".

(** Lines 161-229: source information, injections, build tag, proxy
    configuration and the S2I configuration. *)
Definition assembleConfig (pushTag : string) : M (string * Config) :=
  let* '(sourceInfo, err) := call readSourceInfo in
  match err with
  | Some e => fail SiteSourceInfo ("error reading git source info: " +:+ e)
  | None =>
  let* b := getBuild in
  let s2iSourceInfo : option SourceInfo := toS2ISourceInfo <$> sourceInfo in
  let injections :=
    (injectSecrets (Secrets (Source (Spec b)))
       ++ injectConfigMaps (ConfigMaps (Source (Spec b))))%list in
  let* buildTag := call (randomBuildTag (Namespace b) (Name b)) in
  let* ss := getStrategy in
  match scriptProxyConfig (Env ss) with
  | (_, Some e) => fail SiteProxyConfig e
  | (scriptDownloadProxyConfig, None) =>
  let incremental := match Incremental ss with Some v => v | None => false end in
  let srcDir := InputContentPath in
  let contextDir := contextDirOf b in
  let* dockerCfgPath := call (Getenv PullAuthType) in
  ret (buildTag,
       {| PreserveWorkingDir := true;
          WorkingDir := "/tmp";
          DockerConfig_Endpoint := dockerSocket;
          DockerCfgPath := dockerCfgPath;
          LabelNamespace := DefaultDockerLabelNamespace;
          ScriptsURL := Scripts ss;
          BuilderImage := ref_Name (From ss);
          BuilderPullPolicy := PullAlways;
          cfg_Incremental := incremental;
          IncrementalFromTag := pushTag;
          Environment := buildEnvVars b sourceInfo;
          Labels := s2iBuildLabels b sourceInfo;
          Source_Path := srcDir;
          cfg_ContextDir := contextDir;
          cfg_SourceInfo := s2iSourceInfo;
          ForceCopy := true;
          Injections := injections;
          AsDockerfile := "/tmp/dockercontext/Dockerfile";
          ScriptDownloadProxyConfig := scriptDownloadProxyConfig;
          BlockOnBuild := true;
          KeepSymlinks := true;
          AssembleUser := "";
          Destination := "";
          ImageScriptsURL := "";
          AllowedUIDs := [] |})
  end
  end.

(** The condition [ForcePull || !isImagePresent(s.dockerClient, tag)]; the
    image is inspected only when [ForcePull] is false. *)
Definition mustPull (imageTag : string) : M bool :=
  let* ss := getStrategy in
  if ForcePull ss then ret true
  else let* present := isImagePresent imageTag in ret (negb present).

(** Lines 234-242: the builder image. *)
Definition pullBuilderImage (config : Config) : M unit :=
  let* needed := mustPull (BuilderImage config) in
  if needed then
    let* startTime := call Now in
    let* searchPaths := call (GetDockerAuthSearchPaths PullAuthType) in
    let* err := pullImage (BuilderImage config) searchPaths in
    let* endTime := call Now in
    RecordNewStep StagePullImages StepPullBaseImage startTime endTime ;;;
    match err with
    | Some e => fail SitePullBaseImage e
    | None => ret tt
    end
  else ret tt.

(** Lines 244-265: the previous output image of an incremental build. *)
Definition pullIncrementalImage (config : Config) : M Config :=
  if cfg_Incremental config then
    let* needed := mustPull (IncrementalFromTag config) in
    if needed then
      let* searchPaths := call (GetDockerAuthSearchPaths PushAuthType) in
      let* startTime := call Now in
      let* err := pullImage (IncrementalFromTag config) searchPaths in
      let* endTime := call Now in
      RecordNewStep StagePullImages StepPullInputImage startTime endTime ;;;
      match err with
      | Some _ => ret (set_IncrementalFromTag "" (set_cfg_Incremental false config))
      | None => modifyBuild (set_ForcePull false) ;;; ret config
      end
    else ret config
  else ret config.

(** Lines 267-300: assemble user, destination, scripts URL, allowed UIDs. *)
Definition introspectBuilderImage (config : Config) : M Config :=
  let* '(assembleUser, err) := getAssembleUser (BuilderImage config) in
  match err with
  | Some e => fail SiteAssembleUser e
  | None =>
  let config :=
    if (0 <? String.length assembleUser)%nat then set_AssembleUser assembleUser config
    else config in
  let* '(labels, err) := getImageLabels (BuilderImage config) in
  match err with
  | Some e => fail SiteImageLabels e
  | None =>
  let destination := default "" (labels !! DestinationLabel) in
  let config :=
    if (0 <? String.length destination)%nat then set_Destination destination config
    else config in
  let config :=
    if (String.length (ScriptsURL config) =? 0)%nat then
      let scriptsURL := default "" (labels !! ScriptsURLLabel) in
      if (0 <? String.length scriptsURL)%nat then set_ImageScriptsURL scriptsURL config
      else config
    else config in
  let* allowedUIDs := call (Getenv AllowedUIDsEnv) in
  if (0 <? String.length allowedUIDs)%nat then
    match AllowedUIDs_Set (AllowedUIDs config) allowedUIDs with
    | (_, Some e) => fail SiteAllowedUIDs e
    | (uids, None) => ret (set_AllowedUIDs uids config)
    end
  else ret config
  end
  end.

(** Lines 330-334: the steps reported by the assembly are recorded. *)
Definition recordS2ISteps (stages : list S2IStageInfo) : M unit :=
  fold_right
    (fun stage rest =>
       fold_right
         (fun step rest' =>
            RecordNewStep (s2i_stage_Name stage) (s2i_step_Name step)
              (s2i_step_StartTime step)
              (s2i_step_StartTime step + s2i_step_DurationMilliseconds step)%Z ;;;
            rest')
         rest (s2i_stage_Steps stage))
    (ret tt) stages.

Definition setFailure (reason message : string) : M unit :=
  modifyBuild (set_Status (with_failure reason message)).

(** Lines 302-350: validation, the S2I builder and the assembly.  The
    loop of line 330 dereferences [result] before line 338 tests it for
    nil, so the test holds whenever it is reached. *)
Definition runAssemble (config : Config) : M unit :=
  emit (EvValidateConfig config) ;;;
  let* errs := call (ValidateConfig config) in
  if negb (length errs =? 0)%nat then
    fail SiteValidateConfig (fold_left (fun buffer ve => buffer +:+ ve +:+ ", ") errs "")
  else
  emit (EvBuilder config) ;;;
  let* '(builder, buildInfo, err) := call (Builder config) in
  match err with
  | Some e =>
      setFailure (fr_Reason (bi_FailureReason buildInfo))
                 (fr_Message (bi_FailureReason buildInfo)) ;;;
      statusUpdate ;;;
      fail SiteBuilderFactory e
  | None =>
  match builder with
  | None => panic nilDereference
  | Some builder =>
  emit (EvBuilderBuild config) ;;;
  let* '(result, err) := call (builder_Build builder config) in
  match result with
  | None => panic nilDereference
  | Some result =>
  recordS2ISteps (bi_Stages (res_BuildInfo result)) ;;;
  match err with
  | Some e =>
      setFailure (fr_Reason (bi_FailureReason (res_BuildInfo result)))
                 (fr_Message (bi_FailureReason (res_BuildInfo result))) ;;;
      statusUpdate ;;;
      fail SiteAssemble e
  | None => ret tt
  end
  end
  end
  end.

(** The options of lines 352-362 and 443-453. *)
Definition baseBuildImageOptions (buildTag : string) (forcePull : bool) (contextDir : string) : BuildImageOptions :=
  {| opt_Name := buildTag;
     opt_RmTmpContainer := true;
     opt_ForceRmTmpContainer := true;
     opt_Dockerfile := defaultDockerfilePath;
     opt_NoCache := false;
     opt_Pull := forcePull;
     opt_ContextDir := contextDir;
     opt_CPUPeriod := 0; opt_CPUQuota := 0; opt_CPUShares := 0;
     opt_Memory := 0; opt_Memswap := 0; opt_CgroupParent := "";
     opt_AuthConfigs := ∅ |}.

(** Lines 368-380. *)
Definition withLimitsAndAuth (limits : option CGroupLimits)
    (auth : option (gmap string AuthConfiguration)) (o : BuildImageOptions) : BuildImageOptions :=
  {| opt_Name := opt_Name o;
     opt_RmTmpContainer := opt_RmTmpContainer o;
     opt_ForceRmTmpContainer := opt_ForceRmTmpContainer o;
     opt_Dockerfile := opt_Dockerfile o;
     opt_NoCache := opt_NoCache o;
     opt_Pull := opt_Pull o;
     opt_ContextDir := opt_ContextDir o;
     opt_CPUPeriod := match limits with Some l => CPUPeriod l | None => opt_CPUPeriod o end;
     opt_CPUQuota := match limits with Some l => CPUQuota l | None => opt_CPUQuota o end;
     opt_CPUShares := match limits with Some l => CPUShares l | None => opt_CPUShares o end;
     opt_Memory := match limits with Some l => MemoryLimitBytes l | None => opt_Memory o end;
     opt_Memswap := match limits with Some l => MemorySwap l | None => opt_Memswap o end;
     opt_CgroupParent := match limits with Some l => Parent l | None => opt_CgroupParent o end;
     opt_AuthConfigs := match auth with Some a => a | None => opt_AuthConfigs o end |}.

(** Lines 383-399: the post-commit hook is appended to the recipe. *)
Definition processDockerfile (config : Config) : M unit :=
  let* missing := call (Stat_IsNotExist (AsDockerfile config)) in
  if negb missing then
    let* '(input, err) := call (ReadFile (AsDockerfile config)) in
    match err with
    | Some e => fail SiteReadDockerfile e
    | None =>
    match ParseDockerfile input with
    | (_, Some e) => fail SiteParseDockerfile e
    | (node, None) =>
    let* b := getBuild in
    match appendPostCommit node (buildPostCommit (PostCommit (Spec b))) with
    | (_, Some e) => fail SiteAppendPostCommit e
    | (node, None) =>
    let out := dockerfile_Write node in
    emit (EvOverwriteFile (AsDockerfile config) out) ;;;
    let* _ := call (overwriteFile (AsDockerfile config) out) in
    ret tt
    end
    end
    end
  else ret tt.

(** Lines 352-409: the engine build of the generated recipe. *)
Definition engineBuild (buildTag : string) (config : Config) : M unit :=
  let* ss := getStrategy in
  let opts := baseBuildImageOptions buildTag (ForcePull ss) "/tmp/dockercontext" in
  let* dockerCfgPath := call (Getenv PullAuthType) in
  let* pullAuthConfigs := call (mergeNodeCredentialsDockerAuth dockerCfgPath) in
  let opts := withLimitsAndAuth cgLimits pullAuthConfigs opts in
  let* startTime := call Now in
  processDockerfile config ;;;
  emit (EvBuildImage opts) ;;;
  let* err := call (BuildImage opts) in
  let* endTime := call Now in
  RecordNewStep StageBuild StepDockerBuild startTime endTime ;;;
  match err with
  | Some e =>
      setFailure StatusReasonGenericBuildFailed StatusMessageGenericBuildFailed ;;;
      fail SiteBuildImage e
  | None => ret tt
  end.

(** [exec.Command(name, args...).Output()], traced. *)
Definition runCommand (name : string) (args : list string) : M (string * option error) :=
  emit (EvExec name args) ;;; call (exec_Output name args).

(** Lines 411-463: the secure repackaging, taken when the build tag
    contains [-cw].  The result is (cw_env, cw_workdir, cw_password). *)
Definition secureRepackage (buildTag : string) : M (string * string * string) :=
  if GoStrings.Contains buildTag "-cw" then
    let* '(stdout, err) := runCommand "python3" ["/usr/bin/extract_env.py"; buildTag] in
    match err with
    | Some e => fail SiteExtractEnv e
    | None =>
    let cw_env := stdout in
    let* '(stdout, err) :=
      runCommand "buildah" ["inspect"; "--format='{{.OCIv1.Config.WorkingDir}}'"; buildTag] in
    match err with
    | Some e => fail SiteExtractWorkdir e
    | None =>
    let cw_workdir := GoStrings.ReplaceAll stdout "'" "" in
    let* cw_password := call uuid_New in
    let* '(stdout, err) := runCommand "/usr/bin/cw-build" [buildTag; cw_password] in
    match err with
    | Some e => fail SiteCwBuild e
    | None =>
    let* ss := getStrategy in
    let opts := baseBuildImageOptions buildTag (ForcePull ss) "/tmp/cwcontext" in
    emit (EvBuildImage opts) ;;;
    let* err := call (BuildImage opts) in
    match err with
    | Some e =>
        emit (EvSleep 300) ;;;
        call (Sleep 300) ;;;
        fail SiteCwBuildImage e
    | None => ret (cw_env, cw_workdir, cw_password)
    end
    end
    end
    end
  else ret ("", "", "").

(** Lines 465-517: tag, push, attestation registration, digest. *)
Definition pushOutput (push : bool) (buildTag pushTag : string)
    (cw : string * string * string) : M unit :=
  let '(cw_env, cw_workdir, cw_password) := cw in
  if push then
    emit (EvTagImage buildTag pushTag) ;;;
    let* err := call (tagImage buildTag pushTag) in
    match err with
    | Some e => fail SiteTagImage e
    | None =>
    let* '(pushAuthConfig, authPresent) := call (GetDockerAuth pushTag PushAuthType) in
    let* startTime := call Now in
    let* '(digest, err) := pushImage pushTag pushAuthConfig in
    let* endTime := call Now in
    RecordNewStep StagePushImage StepPushImage startTime endTime ;;;
    match err with
    | Some e =>
        setFailure StatusReasonPushImageToRegistryFailed StatusMessagePushImageToRegistryFailed ;;;
        statusUpdate ;;;
        fail SitePushImage (reportPushFailure e authPresent pushAuthConfig)
    | None =>
    if (0 <? String.length digest)%nat then
      (if negb (String.eqb cw_password "")
       then registerImage digest pushTag cw_password cw_workdir cw_env
       else ret tt) ;;;
      modifyBuild (set_Status (with_Output_To {| ImageDigest := digest |})) ;;;
      statusUpdate
    else ret tt
    end
    end
  else ret tt.

(** Lines 147-518, without the deferred function. *)
Definition buildBody : M unit :=
  let* b := getBuild in
  match SourceStrategy (Spec b) with
  | None =>
      fail SiteSourceStrategy "the source to image builder must be used with the source strategy"
  | Some _ =>
  let* '(push, pushTag) := choosePushTag in
  let* '(buildTag, config) := assembleConfig pushTag in
  pullBuilderImage config ;;;
  let* config := pullIncrementalImage config in
  let* config := introspectBuilderImage config in
  runAssemble config ;;;
  engineBuild buildTag config ;;;
  let* cw := secureRepackage buildTag in
  pushOutput push buildTag pushTag cw
  end.

(** Lines 142-145: the deferred function. *)
Definition deferredStatus : M unit :=
  let* stages := getStages in
  modifyBuild (set_Status (fun st => with_Stages (AppendStageAndStepInfo (Stages st) stages) st)) ;;;
  statusUpdate.

(** [S2IBuilder.Build]: a fresh timing context, the body, then the deferred function
    on every way out of the body, a panic included; the outcome is the
    body's. *)
Definition S2IBuilder_Build (build : Build) (w : W) : outcome unit * State :=
  let s0 := {| st_build := build; st_stages := []; st_world := w; st_trace := [] |} in
  let '(r, s1) := buildBody s0 in
  let '(_, s2) := deferredStatus s1 in
  (r, s2).

End Build.

End Builder.

Arguments State W : clear implicits.
Arguments M W A : clear implicits.

(** ** Reasoning about runs

    [wp m Q E s]: the run of [m] from [s] ends normally in a state and
    with a value that satisfy [Q], or leaves through a [return err] or a
    panic in a state that satisfies [E]. *)

Inductive exit :=
| XErr (site : ErrSite) (e : error)
| XPanic (msg : string).

Definition wp {W A} (m : M W A) (Q : A -> State W -> Prop)
    (E : exit -> State W -> Prop) (s : State W) : Prop :=
  match m s with
  | (Ok a, s') => Q a s'
  | (Err site e, s') => E (XErr site e) s'
  | (Panic msg, s') => E (XPanic msg) s'
  end.


(** The phase, reason and message of a build. *)
Definition statusTriple (b : Build) : string * string * string :=
  (Phase (Status b), Reason (Status b), Message (Status b)).

(** No image is tagged or pushed by this call. *)
Definition notTagOrPush (ev : Event) : Prop :=
  match ev with EvTagImage _ _ | EvPushImage _ _ => False | _ => True end.

(** The request [b'] is the request [b], but for the force-pull flag,
    which is the same or, in an incremental build, false. *)
Definition sameRequestUpToForcePull (b b' : Build) : Prop :=
  Name b' = Name b /\ Namespace b' = Namespace b
  /\ Source (Spec b') = Source (Spec b)
  /\ Output (Spec b') = Output (Spec b)
  /\ PostCommit (Spec b') = PostCommit (Spec b)
  /\ match SourceStrategy (Spec b), SourceStrategy (Spec b') with
     | Some ss, Some ss' =>
         From ss' = From ss /\ Scripts ss' = Scripts ss
         /\ Incremental ss' = Incremental ss /\ Env ss' = Env ss
         /\ (ForcePull ss' = ForcePull ss
             \/ (ForcePull ss' = false /\ Incremental ss = Some true))
     | None, None => True
     | _, _ => False
     end.

(** The final values that the loop of [scriptProxyConfig] leaves in
    [httpProxy] and [httpsProxy]. *)
Definition proxyValues (env : list EnvVar) : string * string :=
  fold_left scanProxyEnv env ("", "").

(** A proxy variable name in its other case form; other names are left
    as they are. *)
Definition otherCaseForm (name : string) : string :=
  if String.eqb name "HTTP_PROXY" then "http_proxy"
  else if String.eqb name "http_proxy" then "HTTP_PROXY"
  else if String.eqb name "HTTPS_PROXY" then "https_proxy"
  else if String.eqb name "https_proxy" then "HTTPS_PROXY"
  else name.

Definition renameEnv (f : string -> string) (env : EnvVar) : EnvVar :=
  {| env_Name := f (env_Name env); env_Value := env_Value env |}.

(** The last value that a list of label overrides gives to a name. *)
Fixpoint lastLabelValue (name : string) (l : list ImageLabel) : option string :=
  match l with
  | [] => None
  | lbl :: l' =>
      match lastLabelValue name l' with
      | Some v => Some v
      | None => if String.eqb (lbl_Name lbl) name then Some (lbl_Value lbl) else None
      end
  end.


(** ** A scripted world

    Concrete collaborators, to evaluate [Build] on concrete requests.
    They keep no state (the world is [unit]) and answer as a script
    says: the engine holds the images [sc_present], pulls and pushes
    answer as scripted, and every other collaborator succeeds.  The
    stand-ins for library functions are simple ones
    ([base64_EncodeToString] is the identity here). *)

Module Scripted.

Record Script := {
  sc_present : string -> bool;
  sc_pull : string -> option error;
  sc_buildTag : string;
  sc_validate : list string;
  sc_assemble : option Result * option error;
  sc_buildImage : option error;
  sc_push : string * option error;
  sc_http : option HTTPResponse * option error
}.

Definition isSpaceByte (c : ascii) : bool :=
  let n := nat_of_ascii c in
  (n =? 32)%nat || ((9 <=? n)%nat && (n <=? 13)%nat).

Fixpoint trimLeft (s : string) : string :=
  match s with
  | String c s' => if isSpaceByte c then trimLeft s' else s
  | EmptyString => EmptyString
  end.

Fixpoint trimRight (s : string) : string :=
  match s with
  | String c s' =>
      match trimRight s' with
      | EmptyString => if isSpaceByte c then EmptyString else String c EmptyString
      | r => String c r
      end
  | EmptyString => EmptyString
  end.

Definition parseProxyURL (v : string) : option URL * option error :=
  if GoStrings.Contains v "://" then (Some v, None)
  else (None, Some ("invalid proxy URL: " +:+ v)).

Definition generateLabels (labels : gmap string string) (info : SourceInfo) (ns : string) : gmap string string :=
  if String.eqb (si_Ref info) "" then labels
  else <[ns +:+ "build.commit.ref" := si_Ref info]> labels.

#[export] Instance externals : Externals := {|
  TrimSpace := fun s => trimRight (trimLeft s);
  base64_EncodeToString := fun s => s;
  filepath_Clean := fun s => s;
  filepath_Join := fun a b => a +:+ "/" +:+ b;
  ParseRepositoryTag := fun name => (name, "");
  GenerateLabelsFromSourceInfo := generateLabels;
  EnvironmentList_Set := fun l kv => (l ++ [(kv, "")])%list;
  AllowedUIDs_Set := fun l _ => (l, None);
  Node := string;
  ParseDockerfile := fun s => (s, None);
  dockerfile_Write := fun n => n;
  ParseProxyURL := parseProxyURL;
  buildInfo := fun _ _ => [];
  toS2ISourceInfo := fun i => i;
  buildPostCommit := fun pc => pc_Script pc;
  appendPostCommit := fun n cmd => (n +:+ cmd, None);
  reportPushFailure := fun e _ _ => e;
  RecordStageAndStepInfo := fun stages stage step startTime endTime =>
    (stages ++ [{| stage_Name := stage; stage_StartTime := startTime;
                   stage_DurationMilliseconds := endTime - startTime;
                   stage_Steps := [{| step_Name := step; step_StartTime := startTime;
                                      step_DurationMilliseconds := endTime - startTime |}] |}])%list;
  AppendStageAndStepInfo := fun stages more => (stages ++ more)%list;
  InputContentPath := "/tmp/build/inputs";
  defaultDockerfilePath := "Dockerfile";
  secretBuildSourceBaseMountPath := "/var/run/secrets/openshift.io/build";
  configMapBuildSourceBaseMountPath := "/var/run/configs/openshift.io/build";
  StatusMessageGenericBuildFailed := "Generic Build failure - check logs for details.";
  StatusMessagePushImageToRegistryFailed := "Failed to push the image to the registry.";
  PullAuthType := "PULL_DOCKERCFG_PATH";
  PushAuthType := "PUSH_DOCKERCFG_PATH";
  AllowedUIDsEnv := "ALLOWED_UIDS";
  DefaultPushOrPullRetryCount := 2;
  DefaultPushOrPullRetryDelay := 5
|}.

Definition builderImage : Image :=
  {| img_ContainerConfig := {| User := "1001:0"; cc_Labels := ∅ |} |}.

Definition dockerClient (sc : Script) : DockerClient unit := {|
  InspectImage := fun tag w =>
    (if sc_present sc tag then (Some builderImage, None)
     else (None, Some ("no such image: " +:+ tag)), w);
  PullImage := fun o _ w => (sc_pull sc (pull_Repository o), w);
  BuildImage := fun _ w => (sc_buildImage sc, w);
  PushImage := fun _ _ w => (sc_push sc, w);
  tagImage := fun _ _ w => (None, w)
|}.

Definition noFailure : FailureReason := {| fr_Reason := ""; fr_Message := "" |}.
Definition noBuildInfo : BuildInfo := {| bi_Stages := []; bi_FailureReason := noFailure |}.

Definition factory (sc : Script) : builderFactory unit := {|
  S2IBuilderHandle := unit;
  Builder := fun _ w => ((Some tt, noBuildInfo, None), w);
  builder_Build := fun _ _ w => (sc_assemble sc, w)
|}.

Definition configValidator (sc : Script) : validator unit := {|
  ValidateConfig := fun _ w => (sc_validate sc, w)
|}.

Definition noAuth : AuthConfiguration :=
  {| auth_Username := ""; auth_Password := ""; auth_ServerAddress := "" |}.

Definition platform (sc : Script) : Platform unit := {|
  readSourceInfo := fun w => ((None, None), w);
  randomBuildTag := fun _ _ w => (sc_buildTag sc, w);
  Getenv := fun _ w => ("", w);
  GetDockerAuthSearchPaths := fun _ w => ([], w);
  GetDockerAuth := fun _ _ w => ((noAuth, false), w);
  mergeNodeCredentialsDockerAuth := fun _ w => (None, w);
  Now := fun w => (0%Z, w);
  Sleep := fun _ w => (tt, w);
  Stat_IsNotExist := fun _ w => (true, w);
  ReadFile := fun _ w => (("", None), w);
  overwriteFile := fun _ _ w => (None, w);
  exec_Output := fun _ _ w => (("", None), w);
  uuid_New := fun w => ("00000000-0000-4000-8000-000000000000", w);
  http_Post := fun _ _ w => (sc_http sc, w);
  HandleBuildStatusUpdate := fun _ w => (tt, w)
|}.

(** A request for the builder image [builder:1] with the output
    reference [to] and the incremental and force-pull flags given. *)
Definition request (to : option ObjectReference) (outputRef : string)
    (incremental forcePull : bool) : Build :=
  {| Name := "app-1"; Namespace := "demo";
     Spec := {| SourceStrategy :=
                  Some {| From := {| ref_Kind := "DockerImage"; ref_Name := "builder:1" |};
                          Scripts := ""; Incremental := Some incremental;
                          ForcePull := forcePull; Env := [] |};
                Source := {| Git := None; ContextDir := ""; Secrets := []; ConfigMaps := [] |};
                Output := {| To := to; ImageLabels := [] |};
                PostCommit := {| pc_Command := []; pc_Args := []; pc_Script := "" |} |};
     Status := {| Phase := "Running"; Reason := ""; Message := "";
                  OutputDockerImageReference := outputRef;
                  Output_To := None; Stages := [] |} |}.

Definition outputTo (name : string) : option ObjectReference :=
  Some {| ref_Kind := "DockerImage"; ref_Name := name |}.

(** The assembly succeeds. *)
Definition assembled : option Result * option error :=
  (Some {| res_BuildInfo := noBuildInfo |}, None).

(** Every image is present, every call succeeds, the push returns a
    digest and the registration is answered with 200. *)
Definition allGood (buildTag : string) : Script :=
  {| sc_present := fun _ => true;
     sc_pull := fun _ => None;
     sc_buildTag := buildTag;
     sc_validate := [];
     sc_assemble := assembled;
     sc_buildImage := None;
     sc_push := ("sha256:abc", None);
     sc_http := (Some {| StatusCode := 200 |}, None) |}.

(** The engine holds no image and cannot pull any. *)
Definition registryDown : Script :=
  {| sc_present := fun _ => false;
     sc_pull := fun r => Some ("unable to pull " +:+ r);
     sc_buildTag := "demo/app-1:4f2a";
     sc_validate := [];
     sc_assemble := assembled;
     sc_buildImage := None;
     sc_push := ("sha256:abc", None);
     sc_http := (Some {| StatusCode := 200 |}, None) |}.


(** A secure-repackaging run whose registration request cannot be sent:
    [client.Do] returns a nil response and an error. *)
Definition registrationUnreachable : Script :=
  {| sc_present := fun _ => true;
     sc_pull := fun _ => None;
     sc_buildTag := "demo/app-cw-1:4f2a";
     sc_validate := [];
     sc_assemble := assembled;
     sc_buildImage := None;
     sc_push := ("sha256:abc", None);
     sc_http := (None, Some "dial tcp: connection refused") |}.

(** The same run with the registration answered by a 500. *)
Definition registrationRejected : Script :=
  {| sc_present := fun _ => true;
     sc_pull := fun _ => None;
     sc_buildTag := "demo/app-cw-1:4f2a";
     sc_validate := [];
     sc_assemble := assembled;
     sc_buildImage := None;
     sc_push := ("sha256:abc", None);
     sc_http := (Some {| StatusCode := 500 |}, None) |}.

(** The assembly fails to fetch the source. *)
Definition cloneFails : Script :=
  {| sc_present := fun _ => true;
     sc_pull := fun _ => None;
     sc_buildTag := "demo/app-1:4f2a";
     sc_validate := [];
     sc_assemble :=
       (Some {| res_BuildInfo :=
                  {| bi_Stages := [];
                     bi_FailureReason := {| fr_Reason := "FetchSourceFailed";
                                            fr_Message := "could not clone" |} |} |},
        Some "exit status 1");
     sc_buildImage := None;
     sc_push := ("sha256:abc", None);
     sc_http := (Some {| StatusCode := 200 |}, None) |}.

(** The engine build fails. *)
Definition engineFails : Script :=
  {| sc_present := fun _ => true;
     sc_pull := fun _ => None;
     sc_buildTag := "demo/app-1:4f2a";
     sc_validate := [];
     sc_assemble := assembled;
     sc_buildImage := Some "build failed";
     sc_push := ("sha256:abc", None);
     sc_http := (Some {| StatusCode := 200 |}, None) |}.

(** A request without source strategy, with a git ref and with two
    overrides of one label. *)
Definition labelledRequest : Build :=
  {| Name := "app-1"; Namespace := "demo";
     Spec := {| SourceStrategy := None;
                Source := {| Git := Some {| Git_URI := "https://git.local/app.git";
                                            Git_Ref := "refs/pull/7/head" |};
                             ContextDir := ""; Secrets := []; ConfigMaps := [] |};
                Output := {| To := None;
                             ImageLabels := [ {| lbl_Name := "vendor"; lbl_Value := "a" |};
                                              {| lbl_Name := "vendor"; lbl_Value := "b" |} ] |};
                PostCommit := {| pc_Command := []; pc_Args := []; pc_Script := "" |} |};
     Status := {| Phase := "Running"; Reason := ""; Message := "";
                  OutputDockerImageReference := ""; Output_To := None; Stages := [] |} |}.

(** What the checked-out tree says. *)
Definition checkedOut : SourceInfo :=
  {| si_Ref := "master"; si_CommitID := "4f2a"; si_Date := ""; si_AuthorName := "";
     si_AuthorEmail := ""; si_Message := ""; si_Location := ""; si_ContextDir := "" |}.

(** [Build] with the collaborators of the script [sc]. *)
Definition run (b : Build) (sc : Script) : outcome unit * State unit :=
  S2IBuilder_Build (docker := dockerClient sc) (factory := factory sc)
    (val := configValidator sc) (platform := platform sc)
    "unix:///var/run/docker.sock" None b tt.

End Scripted.

(** The state that the deferred function of [Build] leaves, given the
    state at the end of the body. *)
Definition finalBuild `{Externals} {W} (s : State W) : Build :=
  set_Status (fun st => with_Stages (AppendStageAndStepInfo (Stages st) (st_stages s)) st)
             (st_build s).

Definition afterDeferred `{Externals} {W} `{Platform W} (s : State W) : State W :=
  {| st_build := finalBuild s;
     st_stages := st_stages s;
     st_world := snd (HandleBuildStatusUpdate (finalBuild s) (st_world s));
     st_trace := st_trace s ++ [EvStatusUpdate (finalBuild s)] |}.

Definition initialState {W} (build : Build) (w : W) : State W :=
  {| st_build := build; st_stages := []; st_world := w; st_trace := [] |}.

(** The names under which [scriptProxyConfig] finds a proxy variable. *)
Definition isProxyVariable (name : string) : bool :=
  String.eqb name "HTTP_PROXY" || String.eqb name "http_proxy"
  || String.eqb name "HTTPS_PROXY" || String.eqb name "https_proxy".

(** [Build] returns an error that is the source-information error or the
    proxy error [e]. *)
Definition failsBeforeOrAtProxy (e : error) (r : outcome unit) : Prop :=
  match r with
  | Err SiteSourceInfo _ => True
  | Err SiteProxyConfig e' => e' = e
  | _ => False
  end.


(** The condition of line 154. *)
Definition noOutputReference (b : Build) : bool :=
  match To (Output (Spec b)) with
  | None => true
  | Some to => (String.length (ref_Name to) =? 0)%nat
  end.

(** The push tag of a request, as lines 154-159 compute it. *)
Definition pushTagOf (b : Build) : string :=
  if noOutputReference b then Name b else OutputDockerImageReference (Status b).

(** A tag or a push, if [ev] is one, is for [pushTag]. *)
Definition tagsOrPushes `{Externals} (pushTag : string) (ev : Event) : Prop :=
  match ev with
  | EvTagImage _ t => t = pushTag
  | EvPushImage o _ => o = pushOptions pushTag
  | _ => True
  end.



(** The test of [isImagePresent] on the results of [InspectImage]. *)
Definition inspectedPresent (r : option Image * option error) : bool :=
  match r with
  | (Some _, None) => true
  | _ => false
  end.

(** The names under which the run has tagged images, oldest first. *)
Definition taggedAs (trace : list Event) : list string :=
  omap (fun ev => match ev with EvTagImage _ pushTag => Some pushTag | _ => None end) trace.

(** ** The rest of [sti.go] *)

(** [buildapiv1.ImageSourcePath]. *)
Record ImageSourcePath := { SourcePath : string; DestinationDir : string }.

(** Lines 645-653.  The loop appends one volume per mapped path to the
    (nil) result; [Keep] is not set and has its zero value. *)
Definition copyToVolumeList (artifactsMapping : list ImageSourcePath) : list VolumeSpec :=
  fold_left
    (fun volumeList mappedPath =>
       (volumeList ++ [{| vol_Source := SourcePath mappedPath;
                          vol_Destination := DestinationDir mappedPath;
                          vol_Keep := false |}])%list)
    artifactsMapping [].

(** The proxy configuration that [scriptProxyConfig] builds from the two
    final values when both parse (an empty value is not parsed). *)
Definition parsedProxyConfig {ext : Externals} (httpProxy httpsProxy : string) : ProxyConfig :=
  {| HTTPProxy := if (0 <? String.length httpProxy)%nat
                  then fst (ParseProxyURL httpProxy) else None;
     HTTPSProxy := if (0 <? String.length httpsProxy)%nat
                   then fst (ParseProxyURL httpsProxy) else None |}.

Definition isHTTPProxyName (name : string) : bool :=
  String.eqb name "HTTP_PROXY" || String.eqb name "http_proxy".

Definition isHTTPSProxyName (name : string) : bool :=
  String.eqb name "HTTPS_PROXY" || String.eqb name "https_proxy".



Definition notPull (ev : Event) : Prop :=
  match ev with EvPullImage _ _ => False | _ => True end.



(** The builds that the run has sent to the status sink, oldest first. *)
Definition statusUpdates (trace : list Event) : list Build :=
  omap (fun ev => match ev with EvStatusUpdate b => Some b | _ => None end) trace.

Definition notStatusUpdate (ev : Event) : Prop :=
  match ev with EvStatusUpdate _ => False | _ => True end.

(** The error sites at which [Build] calls [HandleBuildStatusUpdate]
    itself before it returns (lines 322, 348 and 489). *)
Definition reportsBeforeReturn (site : ErrSite) : bool :=
  match site with
  | SiteBuilderFactory | SiteAssemble | SitePushImage => true
  | _ => false
  end.

(** What the timing context holds when [Build] returns an error at
    [site]: nothing at the first three sites, and, where the step that
    failed is a timed one, that step as the last one recorded. *)
Definition timedFailure {ext : Externals} (site : ErrSite) (stages : list StageInfo) : Prop :=
  match site with
  | SiteSourceStrategy | SiteSourceInfo | SiteProxyConfig => stages = []
  | SitePullBaseImage =>
      exists startTime endTime,
        stages = RecordStageAndStepInfo [] StagePullImages StepPullBaseImage startTime endTime
  | SiteBuildImage =>
      exists earlier startTime endTime,
        stages = RecordStageAndStepInfo earlier StageBuild StepDockerBuild startTime endTime
  | SitePushImage =>
      exists earlier startTime endTime,
        stages = RecordStageAndStepInfo earlier StagePushImage StepPushImage startTime endTime
  | _ => True
  end.

(** The resource limits of an engine build are those of [limits], or
    zero when there are none. *)
Definition limitsPassed (limits : option CGroupLimits) (o : BuildImageOptions) : Prop :=
  match limits with
  | Some l =>
      opt_CPUPeriod o = CPUPeriod l /\ opt_CPUQuota o = CPUQuota l
      /\ opt_CPUShares o = CPUShares l /\ opt_Memory o = MemoryLimitBytes l
      /\ opt_Memswap o = MemorySwap l /\ opt_CgroupParent o = Parent l
  | None =>
      opt_CPUPeriod o = 0%Z /\ opt_CPUQuota o = 0%Z /\ opt_CPUShares o = 0%Z
      /\ opt_Memory o = 0%Z /\ opt_Memswap o = 0%Z /\ opt_CgroupParent o = ""
  end.

(** An engine build, if [ev] is one, has the fixed options of lines
    352-362, pulls the base layers only if the request asked for it, and
    is either the build of the generated recipe with the limits of the
    builder, or the build of the repackaging context without limits and
    without credentials. *)
Definition engineBuildCall {ext : Externals} (limits : option CGroupLimits)
    (forcePull : bool) (ev : Event) : Prop :=
  match ev with
  | EvBuildImage o =>
      opt_Dockerfile o = defaultDockerfilePath
      /\ opt_RmTmpContainer o = true /\ opt_ForceRmTmpContainer o = true
      /\ opt_NoCache o = false
      /\ (opt_Pull o = true -> forcePull = true)
      /\ ((opt_ContextDir o = "/tmp/dockercontext" /\ limitsPassed limits o)
          \/ (opt_ContextDir o = "/tmp/cwcontext" /\ limitsPassed None o
              /\ opt_AuthConfigs o = ∅))
  | _ => True
  end.

(** After a successful pull of the previous output image: a
    configuration, if [ev] carries one, is incremental from [pushTag],
    and an engine build, if [ev] is one, does not pull. *)
Definition incrementalCall (pushTag : string) (ev : Event) : Prop :=
  match ev with
  | EvValidateConfig c | EvBuilder c | EvBuilderBuild c =>
      cfg_Incremental c = true /\ IncrementalFromTag c = pushTag
  | EvBuildImage o => opt_Pull o = false
  | _ => True
  end.

(** The force-pull flag of the build in [s], if it is set, was set in
    [ss]. *)
Definition pullOnlyIfAsked {W : Type} (ss : SourceBuildStrategy) (s : State W) : Prop :=
  forall ss', SourceStrategy (Spec (st_build s)) = Some ss' ->
              ForcePull ss' = true -> ForcePull ss = true.

(** The force-pull flag of the build in [s] is off. *)
Definition forcePullOff {W : Type} (s : State W) : Prop :=
  forall ss', SourceStrategy (Spec (st_build s)) = Some ss' -> ForcePull ss' = false.

(** The calls of a run that goes through, in the order of lines 302,
    315, 328, 401 and 466: the validation, the S2I builder and the
    assembly on the configuration [c], the engine build with the options
    [o] and, for a request with an output reference, the tagging of the
    image just built. *)
Definition pipelineCalls (c : Config) (o : BuildImageOptions) (build : Build) : list Event :=
  [EvValidateConfig c; EvBuilder c; EvBuilderBuild c; EvBuildImage o]
  ++ (if noOutputReference build then []
      else [EvTagImage (opt_Name o) (pushTagOf build)]).

(** ** Further scenarios *)

Module Scenarios.



(** The source strategy of [Scripted.request]. *)
Definition strategyOf (incremental forcePull : bool) : SourceBuildStrategy :=
  {| From := {| ref_Kind := "DockerImage"; ref_Name := "builder:1" |};
     Scripts := ""; Incremental := Some incremental; ForcePull := forcePull; Env := [] |}.

End Scenarios.

(** * Properties *)

(** ** Rules of [wp] *)

Section Rules.

Context {ext : Externals} {W : Type} {docker : DockerClient W}
  {factory : builderFactory W} {val : validator W} {platform : Platform W}.

Implicit Types (s : State W) (E : exit -> State W -> Prop).

Lemma wp_ret {A} (a : A) (Q : A -> State W -> Prop) E s :
  Q a s -> wp (ret a) Q E s.
Proof. intros HQ. exact HQ. Qed.

Lemma wp_bind {A B} (m : M W A) (k : A -> M W B) (Q : B -> State W -> Prop) E s :
  wp m (fun a s' => wp (k a) Q E s') E s -> wp (bind m k) Q E s.
Proof.
  unfold wp, bind. destruct (m s) as [[a | site e | msg] s']; intros Hm; exact Hm.
Qed.

Lemma wp_fail {A} site e (Q : A -> State W -> Prop) E s :
  E (XErr site e) s -> wp (fail site e) Q E s.
Proof. intros HE. exact HE. Qed.

Lemma wp_panic {A} msg (Q : A -> State W -> Prop) E s :
  E (XPanic msg) s -> wp (panic msg) Q E s.
Proof. intros HE. exact HE. Qed.

Lemma wp_getBuild (Q : Build -> State W -> Prop) E s :
  Q (st_build s) s -> wp getBuild Q E s.
Proof. intros HQ. exact HQ. Qed.

Lemma wp_getStages (Q : list StageInfo -> State W -> Prop) E s :
  Q (st_stages s) s -> wp getStages Q E s.
Proof. intros HQ. exact HQ. Qed.

Lemma wp_modifyBuild f (Q : unit -> State W -> Prop) E s :
  Q tt {| st_build := f (st_build s); st_stages := st_stages s;
          st_world := st_world s; st_trace := st_trace s |} ->
  wp (modifyBuild f) Q E s.
Proof. intros HQ. exact HQ. Qed.

Lemma wp_RecordNewStep stage step t1 t2 (Q : unit -> State W -> Prop) E s :
  Q tt {| st_build := st_build s;
          st_stages := RecordStageAndStepInfo (st_stages s) stage step t1 t2;
          st_world := st_world s; st_trace := st_trace s |} ->
  wp (RecordNewStep stage step t1 t2) Q E s.
Proof. intros HQ. exact HQ. Qed.

Lemma wp_emit ev (Q : unit -> State W -> Prop) E s :
  Q tt {| st_build := st_build s; st_stages := st_stages s;
          st_world := st_world s; st_trace := st_trace s ++ [ev] |} ->
  wp (emit ev) Q E s.
Proof. intros HQ. exact HQ. Qed.

Lemma wp_call {A} (f : W -> A * W) (Q : A -> State W -> Prop) E s :
  (forall a w, f (st_world s) = (a, w) ->
     Q a {| st_build := st_build s; st_stages := st_stages s;
            st_world := w; st_trace := st_trace s |}) ->
  wp (call f) Q E s.
Proof.
  unfold wp, call. intros HQ. destruct (f (st_world s)) as [a w] eqn:Hf.
  apply HQ. reflexivity.
Qed.

Lemma wp_mono {A} (m : M W A) (Q Q' : A -> State W -> Prop) E E' s :
  wp m Q E s ->
  (forall a s', Q a s' -> Q' a s') ->
  (forall x s', E x s' -> E' x s') ->
  wp m Q' E' s.
Proof.
  unfold wp. destruct (m s) as [[a | site e | msg] s']; intros Hm HQ HE; auto.
Qed.

(** Sequencing through an intermediate assertion. *)
Lemma wp_seq {A B} (I : A -> State W -> Prop) (m : M W A) (k : A -> M W B)
    (Q : B -> State W -> Prop) E s :
  wp m I E s ->
  (forall a s', I a s' -> wp (k a) Q E s') ->
  wp (bind m k) Q E s.
Proof.
  intros Hm Hk. apply wp_bind. eapply wp_mono; [exact Hm | exact Hk | auto].
Qed.

End Rules.

(** ** The helpers of [Build] *)

Section Helpers.

Context {ext : Externals} {W : Type} {docker : DockerClient W}
  {factory : builderFactory W} {val : validator W} {platform : Platform W}.

Implicit Types (s : State W) (E : exit -> State W -> Prop).

(** A retried action that keeps an invariant and never aborts keeps the
    invariant and never aborts, whatever the retry bound; what it returns
    is what one of the attempts returned. *)
Lemma wp_retryImageAction {A} name n (action : M W (A * option error))
    (I : State W -> Prop) (P : A * option error -> Prop) :
  (forall s, I s -> wp action (fun r s' => P r /\ I s') (fun _ _ => False) s) ->
  (forall s w, I s -> I {| st_build := st_build s; st_stages := st_stages s;
                           st_world := w; st_trace := st_trace s |}) ->
  forall s, I s ->
    wp (retryImageAction name n action) (fun r s' => P r /\ I s') (fun _ _ => False) s.
Proof.
  intros Hact Hworld. induction n as [| n IH]; intros s Hs; simpl.
  - apply wp_bind. eapply wp_mono; [apply Hact, Hs | | auto].
    intros [a [e |]] s' Hs'; apply wp_ret; exact Hs'.
  - apply wp_bind. eapply wp_mono; [apply Hact, Hs | | auto].
    intros [a [e |]] s' Hs'.
    + apply wp_bind, wp_call. intros _ w _. apply IH, Hworld, Hs'.
    + apply wp_ret. exact Hs'.
Qed.

(** [pullImage] returns normally with the error of one of its attempts;
    it touches neither the build object nor the timing context and its
    visible calls are pulls of [name], one at least. *)
Lemma wp_pullImage_result name searchPaths (P : option error -> Prop)
    (Q : option error -> State W -> Prop) E s :
  (forall w, P (fst (PullImage (pullOptions name) searchPaths w))) ->
  (forall err w evs,
     P err ->
     Forall (fun ev => ev = EvPullImage (pullOptions name) searchPaths) evs ->
     evs <> [] ->
     Q err {| st_build := st_build s; st_stages := st_stages s;
              st_world := w; st_trace := st_trace s ++ evs |}) ->
  wp (pullImage name searchPaths) Q E s.
Proof.
  intros HP HQ. unfold pullImage. apply wp_bind.
  set (ev0 := EvPullImage (pullOptions name) searchPaths).
  set (I := fun (s' : State W) =>
    exists w evs, Forall (fun ev => ev = ev0) evs /\
      s' = {| st_build := st_build s; st_stages := st_stages s;
              st_world := w; st_trace := st_trace s ++ evs |}).
  set (R := fun (r : unit * option error) (s' : State W) =>
    P (snd r) /\ exists w evs, Forall (fun ev => ev = ev0) evs /\ evs <> [] /\
      s' = {| st_build := st_build s; st_stages := st_stages s;
              st_world := w; st_trace := st_trace s ++ evs |}).
  assert (Hact : forall s1, I s1 ->
            wp (bind (emit ev0) (fun _ =>
                  bind (call (PullImage (pullOptions name) searchPaths))
                       (fun pullErr => ret (tt, pullErr))))
               R (fun _ _ => False) s1).
  { intros s1 (w & evs & Hevs & ->).
    apply wp_bind, wp_emit, wp_bind, wp_call. intros a w' Hcall. apply wp_ret.
    split; [simpl; specialize (HP w); simpl in Hcall; rewrite Hcall in HP; exact HP |].
    eexists w', _. split; [| split; [| simpl; rewrite <- app_assoc; reflexivity]].
    - apply Forall_app. split; [exact Hevs | repeat constructor].
    - intros Hnil. apply app_eq_nil in Hnil as [_ Hnil]. discriminate. }
  assert (HR : forall r s', R r s' -> I s').
  { intros r s' (_ & w & evs & Hevs & _ & ->). exists w, evs. auto. }
  assert (H0' : I s).
  { exists (st_world s), []. split; [constructor |].
    rewrite app_nil_r. destruct s; reflexivity. }
  assert (Hretry : forall n s1, I s1 ->
            wp (retryImageAction "Pull" n
                  (bind (emit ev0) (fun _ =>
                     bind (call (PullImage (pullOptions name) searchPaths))
                          (fun pullErr => ret (tt, pullErr)))))
               R (fun _ _ => False) s1).
  { induction n as [| n IH]; intros s1 Hs1; simpl.
    - apply wp_bind. eapply wp_mono; [apply Hact, Hs1 | | auto].
      intros [a [e |]] s' Hs'; apply wp_ret; exact Hs'.
    - apply wp_bind. eapply wp_mono; [apply Hact, Hs1 | | auto].
      intros [a [e |]] s' Hs'.
      + apply wp_bind, wp_call. intros _ w _. apply IH.
        apply HR in Hs'. destruct Hs' as (w1 & evs & Hevs & ->). exists w, evs. auto.
      + apply wp_ret. exact Hs'. }
  eapply wp_mono; [apply Hretry, H0' | | intros x s' []].
  intros [[] err] s' (HPerr & w & evs & Hevs & Hne & ->). apply wp_ret. apply HQ; auto.
Qed.

Lemma wp_pullImage name searchPaths (Q : option error -> State W -> Prop) E s :
  (forall err w evs,
     Forall (fun ev => ev = EvPullImage (pullOptions name) searchPaths) evs ->
     evs <> [] ->
     Q err {| st_build := st_build s; st_stages := st_stages s;
              st_world := w; st_trace := st_trace s ++ evs |}) ->
  wp (pullImage name searchPaths) Q E s.
Proof.
  intros HQ. apply (wp_pullImage_result name searchPaths (fun _ => True)); [auto |].
  intros err w evs _. apply HQ.
Qed.

(** [pushImage], likewise; its visible calls are pushes of [name]. *)
Lemma wp_pushImage name auth (Q : string * option error -> State W -> Prop) E s :
  (forall r w evs,
     Forall (fun ev => ev = EvPushImage (pushOptions name) auth) evs ->
     evs <> [] ->
     Q r {| st_build := st_build s; st_stages := st_stages s;
            st_world := w; st_trace := st_trace s ++ evs |}) ->
  wp (pushImage name auth) Q E s.
Proof.
  intros HQ. unfold pushImage. apply wp_bind.
  set (ev0 := EvPushImage (pushOptions name) auth).
  set (I := fun (nonempty : bool) (s' : State W) =>
    exists w evs, Forall (fun ev => ev = ev0) evs /\
      (nonempty = true -> evs <> []) /\
      s' = {| st_build := st_build s; st_stages := st_stages s;
              st_world := w; st_trace := st_trace s ++ evs |}).
  assert (Hact : forall b s1, I b s1 ->
            wp (bind (emit ev0) (fun _ =>
                  bind (call (PushImage (pushOptions name) auth))
                       (fun x => let '(sha, err) := x in ret ((sha, err), err))))
               (fun _ s' => True /\ I true s') (fun _ _ => False) s1).
  { intros b s1 (w & evs & Hevs & _ & ->).
    apply wp_bind, wp_emit, wp_bind, wp_call. intros [sha err] w' _. apply wp_ret.
    split; [exact Logic.I |].
    eexists w', _. split; [| split; [| simpl; rewrite <- app_assoc; reflexivity]].
    - apply Forall_app. split; [exact Hevs | repeat constructor].
    - intros _ Hnil. apply app_eq_nil in Hnil as [_ Hnil]. discriminate. }
  assert (Hworld : forall s1 w, I true s1 ->
            I true {| st_build := st_build s1; st_stages := st_stages s1;
                      st_world := w; st_trace := st_trace s1 |}).
  { intros s1 w' (w & evs & Hevs & Hne & ->). exists w', evs. auto. }
  assert (H0' : I false s).
  { exists (st_world s), []. split; [constructor | split; [discriminate |]].
    rewrite app_nil_r. destruct s; reflexivity. }
  eapply wp_mono with (Q := fun _ s' => True /\ I true s') (E := fun _ _ => False).
  - destruct DefaultPushOrPullRetryCount as [| n]; simpl.
    + apply wp_bind. eapply wp_mono; [apply (Hact false), H0' | | auto].
      intros [a [e |]] s' Hs'; apply wp_ret; exact Hs'.
    + apply wp_bind. eapply wp_mono; [apply (Hact false), H0' | | auto].
      intros [a [e |]] s' [_ Hs'].
      * apply wp_bind, wp_call. intros _ w _.
        apply (wp_retryImageAction _ _ _ (I true) (fun _ => True));
          [apply Hact | apply Hworld |].
        apply Hworld, Hs'.
      * apply wp_ret. split; [exact Logic.I | exact Hs'].
  - intros [captured err] s' (_ & w & evs & Hevs & Hne & ->). apply wp_ret. apply HQ; auto.
  - intros x s' [].
Qed.

(** The steps of the assembly change the timing context only. *)
Lemma wp_recordS2ISteps stages (Q : unit -> State W -> Prop) E s :
  (forall g, Q tt {| st_build := st_build s; st_stages := g;
                     st_world := st_world s; st_trace := st_trace s |}) ->
  wp (recordS2ISteps stages) Q E s.
Proof.
  intros HQ. unfold recordS2ISteps.
  assert (Hs : s = {| st_build := st_build s; st_stages := st_stages s;
                      st_world := st_world s; st_trace := st_trace s |})
    by (destruct s; reflexivity).
  rewrite Hs. generalize (st_stages s) as g. clear Hs.
  induction stages as [| stage stages IH]; intros g; simpl.
  - apply wp_ret, HQ.
  - generalize g. clear g.
    induction (s2i_stage_Steps stage) as [| step steps IHsteps]; intros g; simpl.
    + apply IH.
    + apply wp_bind, wp_RecordNewStep. simpl. apply IHsteps.
Qed.

End Helpers.

(** ** Symbolic runs of [Build] *)

Ltac wp_simpl := cbv beta; cbn [st_build st_stages st_world st_trace].

Ltac wp_step :=
  lazymatch goal with
  | |- wp (bind _ _) _ _ _ => apply wp_bind
  | |- wp (ret _) _ _ _ => apply wp_ret
  | |- wp (fail _ _) _ _ _ => apply wp_fail
  | |- wp (panic _) _ _ _ => apply wp_panic
  | |- wp getBuild _ _ _ => apply wp_getBuild
  | |- wp getStages _ _ _ => apply wp_getStages
  | |- wp (modifyBuild _) _ _ _ => apply wp_modifyBuild
  | |- wp (RecordNewStep _ _ _ _) _ _ _ => apply wp_RecordNewStep
  | |- wp (emit _) _ _ _ => apply wp_emit
  | |- wp (call _) _ _ _ => apply wp_call; intros ? ? ?
  | |- wp (pullImage _ _) _ _ _ => apply wp_pullImage; intros ? ? ? ? ?
  | |- wp (pushImage _ _) _ _ _ => apply wp_pushImage; intros ? ? ? ? ?
  | |- wp (recordS2ISteps _) _ _ _ => apply wp_recordS2ISteps; intros ?
  | |- wp (match ?x with _ => _ end) _ _ _ => destruct x eqn:?
  end; wp_simpl.

Ltac unfold_build :=
  unfold buildBody, choosePushTag, assembleConfig, pullBuilderImage,
    pullIncrementalImage, mustPull, introspectBuilderImage, runAssemble,
    engineBuild, processDockerfile, secureRepackage, runCommand, pushOutput,
    registerImage, getStrategy, statusUpdate, setFailure, isImagePresent,
    getAssembleUser, getImageLabels, deferredStatus.

(** One block of [Build], run up to the assertion [Inv]. *)
Ltac wp_stage Inv :=
  apply wp_seq with (I := fun _ => Inv); [unfold_build; repeat wp_step |].

Section BuildFacts.

Context {ext : Externals} {W : Type} {docker : DockerClient W}
  {factory : builderFactory W} {val : validator W} {platform : Platform W}.

Variable dockerSocket : string.
Variable cgLimits : option CGroupLimits.

Lemma Build_unfold build w :
  S2IBuilder_Build dockerSocket cgLimits build w
  = (fst (buildBody dockerSocket cgLimits (initialState build w)),
     afterDeferred (snd (buildBody dockerSocket cgLimits (initialState build w)))).
Proof.
  unfold S2IBuilder_Build. fold (initialState build w).
  destruct (buildBody dockerSocket cgLimits (initialState build w)) as [r s1].
  unfold deferredStatus, statusUpdate, bind, getStages, modifyBuild, getBuild,
    emit, call, afterDeferred, finalBuild.
  simpl. destruct (HandleBuildStatusUpdate _ (st_world s1)) as [u w'].
  reflexivity.
Qed.

(** The body never writes [Status.Stages]. *)
Lemma buildBody_Stages build w :
  wp (buildBody dockerSocket cgLimits)
     (fun _ s => Stages (Status (st_build s)) = Stages (Status build))
     (fun _ s => Stages (Status (st_build s)) = Stages (Status build))
     (initialState build w).
Proof.
  set (I := fun s : State W => Stages (Status (st_build s)) = Stages (Status build)).
  unfold buildBody. do 3 wp_step; [| wp_step; reflexivity].
  wp_stage I; [reflexivity .. | intros [push pushTag] s1 Hs1].
  wp_stage I; [exact Hs1 .. | intros [buildTag config] s2 Hs2].
  wp_stage I; [exact Hs2 .. | intros _ s3 Hs3].
  wp_stage I; [exact Hs3 .. | intros config' s4 Hs4].
  wp_stage I; [exact Hs4 .. | intros config'' s5 Hs5].
  wp_stage I; [exact Hs5 .. | intros _ s6 Hs6].
  wp_stage I; [exact Hs6 .. | intros _ s7 Hs7].
  wp_stage I; [exact Hs7 .. | intros cw s8 Hs8].
  unfold_build. repeat wp_step; exact Hs8.
Qed.

End BuildFacts.

(** ** Strings *)

Section StringFacts.

Lemma substring_all t : String.substring 0 (String.length t) t = t.
Proof. induction t as [| x t IH]; simpl; [reflexivity | f_equal; exact IH]. Qed.

Lemma Cut_cons d s sep :
  GoStrings.Cut (String d s) sep
  = if GoStrings.HasPrefix (String d s) sep
    then Some (EmptyString,
               String.substring (String.length sep)
                 (String.length (String d s) - String.length sep) (String d s))
    else match GoStrings.Cut s sep with
         | Some (before, after) => Some (String d before, after)
         | None => None
         end.
Proof. reflexivity. Qed.

Lemma HasPrefix_char d s c :
  GoStrings.HasPrefix (String d s) (String c EmptyString) = bool_decide (c = d).
Proof.
  unfold GoStrings.HasPrefix. simpl.
  destruct (ascii_dec c d) as [-> | Hne].
  - rewrite bool_decide_eq_true_2 by reflexivity. destruct s; reflexivity.
  - rewrite bool_decide_eq_false_2 by exact Hne. reflexivity.
Qed.

(** [Cut] finds the first separator: nothing before it contains one. *)
Lemma Cut_first before after c :
  GoStrings.Contains before (String c EmptyString) = false ->
  GoStrings.Cut (before +:+ String c after) (String c EmptyString) = Some (before, after).
Proof.
  induction before as [| d before IH]; intros Hno.
  - change (EmptyString +:+ String c after) with (String c after).
    rewrite Cut_cons, HasPrefix_char, bool_decide_eq_true_2 by reflexivity.
    simpl. rewrite Nat.sub_0_r, substring_all. reflexivity.
  - change (String d before +:+ String c after) with (String d (before +:+ String c after)).
    change (GoStrings.Contains (String d before) (String c EmptyString))
      with (GoStrings.HasPrefix (String d before) (String c EmptyString)
            || GoStrings.Contains before (String c EmptyString)) in Hno.
    apply orb_false_iff in Hno as [Hp Hrest].
    rewrite HasPrefix_char in Hp.
    rewrite Cut_cons, HasPrefix_char, Hp, (IH Hrest). reflexivity.
Qed.

Lemma Cut_none s c :
  GoStrings.Contains s (String c EmptyString) = false ->
  GoStrings.Cut s (String c EmptyString) = None.
Proof.
  induction s as [| d s IH]; intros Hno.
  - reflexivity.
  - change (GoStrings.Contains (String d s) (String c EmptyString))
      with (GoStrings.HasPrefix (String d s) (String c EmptyString)
            || GoStrings.Contains s (String c EmptyString)) in Hno.
    apply orb_false_iff in Hno as [Hp Hrest].
    rewrite Cut_cons, Hp, (IH Hrest). reflexivity.
Qed.

Lemma Contains_app_sep before after c :
  GoStrings.Contains (before +:+ String c after) (String c EmptyString) = true.
Proof.
  induction before as [| d before IH].
  - change (EmptyString +:+ String c after) with (String c after).
    change (GoStrings.Contains (String c after) (String c EmptyString))
      with (GoStrings.HasPrefix (String c after) (String c EmptyString)
            || GoStrings.Contains after (String c EmptyString)).
    rewrite HasPrefix_char, bool_decide_eq_true_2 by reflexivity. reflexivity.
  - change (String d before +:+ String c after) with (String d (before +:+ String c after)).
    change (GoStrings.Contains (String d (before +:+ String c after)) (String c EmptyString))
      with (GoStrings.HasPrefix (String d (before +:+ String c after)) (String c EmptyString)
            || GoStrings.Contains (before +:+ String c after) (String c EmptyString)).
    rewrite IH. apply orb_true_r.
Qed.

End StringFacts.

(** ** The assemble user *)

Section AssembleUser.

Context {ext : Externals} {W : Type} {docker : DockerClient W}
  {factory : builderFactory W} {val : validator W} {platform : Platform W}.

Lemma extractUser_user_group user group :
  GoStrings.Contains user ":" = false ->
  extractUser (user +:+ ":" +:+ group) = TrimSpace user.
Proof.
  intros Hno. unfold extractUser, GoStrings.SplitN2.
  change (":" +:+ group) with (String ":"%char group).
  rewrite Contains_app_sep, (Cut_first _ _ _ Hno). reflexivity.
Qed.

Lemma extractUser_plain userSpec :
  GoStrings.Contains userSpec ":" = false ->
  extractUser userSpec = TrimSpace userSpec.
Proof. intros Hno. unfold extractUser. rewrite Hno. reflexivity. Qed.

Lemma getAssembleUser_inspected imageTag image (s : State W) w' :
  InspectImage imageTag (st_world s) = (Some image, None, w') ->
  getAssembleUser imageTag s
  = (Ok (assembleUserOf image, None),
     {| st_build := st_build s; st_stages := st_stages s;
        st_world := w'; st_trace := st_trace s |}).
Proof.
  intros Hinspect. unfold getAssembleUser, bind, call, ret. rewrite Hinspect. reflexivity.
Qed.

(** C8.  The assemble user of a builder image is the image's configured
    user, or the value of the assemble-user label when the image has that
    label; of a value [user:group] only the user, trimmed of white space,
    is kept, and a value without colon is kept trimmed.  This is what
    [getAssembleUser] returns for an image that the engine inspects
    without error. *)
Theorem assemble_user_resolution (image : Image) :
  let cc := img_ContainerConfig image in
  (cc_Labels cc !! AssembleUserLabel = None ->
     assembleUserOf image = extractUser (User cc))
  /\ (forall v, cc_Labels cc !! AssembleUserLabel = Some v ->
        assembleUserOf image = extractUser v)
  /\ (forall user group, GoStrings.Contains user ":" = false ->
        extractUser (user +:+ ":" +:+ group) = TrimSpace user)
  /\ (forall userSpec, GoStrings.Contains userSpec ":" = false ->
        extractUser userSpec = TrimSpace userSpec)
  /\ (forall imageTag (s : State W) w',
        InspectImage imageTag (st_world s) = (Some image, None, w') ->
        fst (getAssembleUser imageTag s) = Ok (assembleUserOf image, None)).
Proof.
  simpl. repeat split.
  - intros Hnone. unfold assembleUserOf. rewrite Hnone. reflexivity.
  - intros v Hsome. unfold assembleUserOf. rewrite Hsome. reflexivity.
  - apply extractUser_user_group.
  - apply extractUser_plain.
  - intros imageTag s w' Hinspect.
    rewrite (getAssembleUser_inspected _ _ _ _ Hinspect). reflexivity.
Qed.

End AssembleUser.

(** ** Labels *)

Section LabelFacts.

Context {ext : Externals}.

Lemma applyImageLabels_lookup (l : list ImageLabel) (labels : gmap string string) name :
  applyImageLabels labels l !! name
  = match lastLabelValue name l with
    | Some v => Some v
    | None => labels !! name
    end.
Proof.
  unfold applyImageLabels. revert labels.
  induction l as [| lbl l IH]; intros labels; simpl.
  - reflexivity.
  - rewrite IH. destruct (lastLabelValue name l) as [v |]; [reflexivity |].
    destruct (String.eqb_spec (lbl_Name lbl) name) as [-> | Hne].
    + apply lookup_insert_eq.
    + apply lookup_insert_ne. exact Hne.
Qed.

(** C9.  In the labels of [s2iBuildLabels] a caller-supplied output image
    label has the last value the caller gave it, whatever the git ref and
    the source information say; the commit-ref label, unless the caller
    overrides it, is the explicitly requested git ref, whatever the
    source information gave; and a label that neither overrides is the
    one generated from the source information. *)
Theorem s2iBuildLabels_precedence (build : Build) (sourceInfo : option SourceInfo) :
  let overrides := ImageLabels (Output (Spec build)) in
  let contextDir := ContextDir (Source (Spec build)) in
  let info := match sourceInfo with Some i => i | None => emptySourceInfo end in
  let info := if (0 <? String.length contextDir)%nat then with_ContextDir contextDir info else info in
  let generated :=
    GenerateLabelsFromSourceInfo ∅ (toS2ISourceInfo info) DefaultDockerLabelNamespace in
  (forall name v, lastLabelValue name overrides = Some v ->
     s2iBuildLabels build sourceInfo !! name = Some v)
  /\ (forall g, Git (Source (Spec build)) = Some g -> Git_Ref g <> "" ->
        lastLabelValue commitRefLabel overrides = None ->
        s2iBuildLabels build sourceInfo !! commitRefLabel = Some (Git_Ref g))
  /\ (forall name, lastLabelValue name overrides = None ->
        (name <> commitRefLabel
         \/ match Git (Source (Spec build)) with Some g => Git_Ref g = "" | None => True end) ->
        s2iBuildLabels build sourceInfo !! name = generated !! name).
Proof.
  simpl. unfold s2iBuildLabels. repeat split.
  - intros name v Hlast. rewrite applyImageLabels_lookup, Hlast. reflexivity.
  - intros g Hgit Href Hlast. rewrite applyImageLabels_lookup, Hlast, Hgit.
    destruct (String.eqb_spec (Git_Ref g) "") as [Heq | _]; [contradiction |].
    simpl. apply lookup_insert_eq.
  - intros name Hlast Hside. rewrite applyImageLabels_lookup, Hlast.
    destruct (Git (Source (Spec build))) as [g |]; [| reflexivity].
    destruct (String.eqb_spec (Git_Ref g) "") as [Heq | Hne]; simpl; [reflexivity |].
    destruct Hside as [Hname | Hempty]; [| contradiction].
    apply lookup_insert_ne. congruence.
Qed.

End LabelFacts.

(** ** The attestation-registration payload *)

Section ReplaceFacts.

Lemma replaceFrom_cons d s old new :
  GoStrings.replaceFrom 0 (String d s) old new
  = if GoStrings.HasPrefix (String d s) old
    then new +:+ GoStrings.replaceFrom (String.length old - 1) s old new
    else String d (GoStrings.replaceFrom 0 s old new).
Proof. reflexivity. Qed.

Lemma Contains_cons d s p :
  GoStrings.Contains (String d s) p
  = GoStrings.HasPrefix (String d s) p || GoStrings.Contains s p.
Proof. reflexivity. Qed.

Lemma ReplaceAll_absent s old new :
  GoStrings.Contains s old = false -> GoStrings.ReplaceAll s old new = s.
Proof.
  unfold GoStrings.ReplaceAll. induction s as [| d s IH]; intros Hno; [reflexivity |].
  rewrite Contains_cons in Hno. apply orb_false_iff in Hno as [Hp Hrest].
  rewrite replaceFrom_cons, Hp, (IH Hrest). reflexivity.
Qed.







End ReplaceFacts.

Section PayloadFacts.
Context {ext : Externals}.


End PayloadFacts.

(** ** The proxy configuration *)

Section ProxyFacts.

Context {ext : Externals} {W : Type} {docker : DockerClient W}
  {factory : builderFactory W} {val : validator W} {platform : Platform W}.

Variable dockerSocket : string.
Variable cgLimits : option CGroupLimits.

Lemma scanProxyEnv_otherCase acc env :
  scanProxyEnv acc (renameEnv otherCaseForm env) = scanProxyEnv acc env.
Proof.
  destruct env as [name value]. unfold scanProxyEnv, renameEnv, otherCaseForm. simpl.
  destruct (String.eqb_spec name "HTTP_PROXY") as [-> | H1']; [reflexivity |].
  destruct (String.eqb_spec name "http_proxy") as [-> | H2']; [reflexivity |].
  destruct (String.eqb_spec name "HTTPS_PROXY") as [-> | H3']; [reflexivity |].
  destruct (String.eqb_spec name "https_proxy") as [-> | H4']; [reflexivity |].
  rewrite !(proj2 (String.eqb_neq _ _)) by assumption. reflexivity.
Qed.

Lemma proxyValues_otherCase env :
  proxyValues (map (renameEnv otherCaseForm) env) = proxyValues env.
Proof.
  unfold proxyValues. generalize ("", "") as acc.
  induction env as [| e env IH]; intros acc; simpl; [reflexivity |].
  rewrite scanProxyEnv_otherCase. apply IH.
Qed.

Lemma scanProxyEnv_other acc e :
  isProxyVariable (env_Name e) = false -> scanProxyEnv acc e = acc.
Proof.
  unfold isProxyVariable, scanProxyEnv. intros He.
  apply orb_false_iff in He as [He H4'].
  apply orb_false_iff in He as [He H3'].
  apply orb_false_iff in He as [H1' H2'].
  rewrite H1', H2', H3', H4'. reflexivity.
Qed.

Lemma proxyValues_unset env :
  Forall (fun e => isProxyVariable (env_Name e) = false) env ->
  proxyValues env = ("", "").
Proof.
  unfold proxyValues. generalize ("", "") as acc.
  induction env as [| e env IH]; intros acc Hall; [reflexivity |].
  inversion Hall as [| ? ? He Hrest]; subst. simpl.
  rewrite (scanProxyEnv_other _ _ He). apply IH, Hrest.
Qed.

Lemma scriptProxyConfig_unset env :
  proxyValues env = ("", "") -> scriptProxyConfig env = (None, None).
Proof.
  intros Hv. unfold scriptProxyConfig. fold (proxyValues env). rewrite Hv. reflexivity.
Qed.

Lemma length_pos_iff (v : string) : (0 <? String.length v)%nat = true <-> v <> "".
Proof.
  destruct v; simpl; split; intros Hv; try discriminate; try reflexivity.
  contradiction.
Qed.

Lemma scriptProxyConfig_error env v :
  fst (proxyValues env) = v \/ snd (proxyValues env) = v ->
  v <> "" ->
  snd (ParseProxyURL v) <> None ->
  exists e, scriptProxyConfig env = (None, Some e).
Proof.
  intros Hv Hne Herr. unfold scriptProxyConfig. fold (proxyValues env).
  destruct (proxyValues env) as [httpProxy httpsProxy]. simpl in Hv.
  apply length_pos_iff in Hne.
  destruct Hv as [-> | ->].
  - destruct v as [| c v]; [discriminate |]. simpl.
    destruct (ParseProxyURL (String c v)) as [u [e |]]; [| contradiction].
    exists e. reflexivity.
  - destruct v as [| c v]; [discriminate |].
    replace ((String.length httpProxy =? 0)%nat && (String.length (String c v) =? 0)%nat)
      with false by (simpl; rewrite andb_false_r; reflexivity).
    destruct (0 <? String.length httpProxy)%nat.
    + destruct (ParseProxyURL httpProxy) as [u [e |]]; [exists e; reflexivity |].
      simpl. destruct (ParseProxyURL (String c v)) as [u' [e |]]; [| contradiction].
      exists e. reflexivity.
    + simpl. destruct (ParseProxyURL (String c v)) as [u' [e |]]; [| contradiction].
      exists e. reflexivity.
Qed.

(** A failing proxy configuration makes [Build] return an error. *)
Lemma buildBody_proxy_error build w ss e :
  SourceStrategy (Spec build) = Some ss ->
  scriptProxyConfig (Env ss) = (None, Some e) ->
  wp (buildBody dockerSocket cgLimits) (fun _ _ => False)
     (fun x _ => match x with
                 | XErr site e' => failsBeforeOrAtProxy e (Err site e')
                 | XPanic _ => False
                 end)
     (initialState build w).
Proof.
  intros Hss Hproxy. unfold buildBody. do 2 wp_step. unfold initialState at 1. wp_simpl.
  rewrite Hss.
  apply wp_seq with (I := fun _ s => SourceStrategy (Spec (st_build s)) = Some ss).
  { unfold_build. repeat wp_step; exact Hss. }
  intros [push pushTag] s1 Hs1.
  apply wp_seq with (I := fun _ _ => False); [| intros ? ? []].
  unfold_build. repeat wp_step; simpl; try congruence; auto.
Qed.

(** C7.  [scriptProxyConfig] gives the same result when proxy variables
    are named in their other case form ([HTTP_PROXY] for [http_proxy],
    [https_proxy] for [HTTPS_PROXY], and back); when the environment
    names no proxy variable, or leaves both values empty, the result is
    nil and no error; when the value found for either proxy is not empty
    and fails to parse, the result is an error and [Build] returns an
    error: that one, unless reading the source information failed before. *)
Theorem scriptProxyConfig_resolution (env : list EnvVar) :
  scriptProxyConfig (map (renameEnv otherCaseForm) env) = scriptProxyConfig env
  /\ (Forall (fun e => isProxyVariable (env_Name e) = false) env ->
        scriptProxyConfig env = (None, None))
  /\ (proxyValues env = ("", "") -> scriptProxyConfig env = (None, None))
  /\ (forall v, fst (proxyValues env) = v \/ snd (proxyValues env) = v ->
        v <> "" -> snd (ParseProxyURL v) <> None ->
        exists e, scriptProxyConfig env = (None, Some e)
          /\ forall build w ss,
               SourceStrategy (Spec build) = Some ss -> Env ss = env ->
               failsBeforeOrAtProxy e (fst (S2IBuilder_Build dockerSocket cgLimits build w))).
Proof.
  split; [| split; [| split]].
  - unfold scriptProxyConfig. fold (proxyValues (map (renameEnv otherCaseForm) env)).
    fold (proxyValues env). rewrite proxyValues_otherCase. reflexivity.
  - intros Hall. apply scriptProxyConfig_unset, proxyValues_unset, Hall.
  - apply scriptProxyConfig_unset.
  - intros v Hv Hne Herr.
    destruct (scriptProxyConfig_error env v Hv Hne Herr) as [e He].
    exists e. split; [exact He |].
    intros build w ss Hss <-.
    rewrite Build_unfold. cbn [fst].
    pose proof (buildBody_proxy_error build w ss e Hss He) as Hwp.
    unfold wp in Hwp.
    destruct (buildBody dockerSocket cgLimits (initialState build w)) as [[[] | site e' | msg] s1];
      simpl; exact Hwp.
Qed.

End ProxyFacts.

(** ** Status and request over a whole run *)

Section RunFacts.

Context {ext : Externals} {W : Type} {docker : DockerClient W}
  {factory : builderFactory W} {val : validator W} {platform : Platform W}.

Variable dockerSocket : string.
Variable cgLimits : option CGroupLimits.

(** C10.  On every way out of [Build], the normal return, every error and
    a panic alike, the status stages of the build are the stages it had
    with the stages of the timing context appended, and the last visible
    call of the run is a status update that carries the build in this
    final state. *)
Theorem Build_deferred_status_update (build : Build) (w : W) :
  let final := snd (S2IBuilder_Build dockerSocket cgLimits build w) in
  Stages (Status (st_build final))
  = AppendStageAndStepInfo (Stages (Status build)) (st_stages final)
  /\ exists earlier, st_trace final = (earlier ++ [EvStatusUpdate (st_build final)])%list.
Proof.
  simpl. rewrite Build_unfold. cbn [snd].
  pose proof (buildBody_Stages dockerSocket cgLimits build w) as Hwp.
  unfold wp in Hwp.
  destruct (buildBody dockerSocket cgLimits (initialState build w)) as [r s1].
  assert (Hstages : Stages (Status (st_build s1)) = Stages (Status build))
    by (destruct r; exact Hwp).
  split.
  - simpl. rewrite Hstages. reflexivity.
  - exists (st_trace s1). reflexivity.
Qed.



Lemma sameRequest_refl b : sameRequestUpToForcePull b b.
Proof.
  unfold sameRequestUpToForcePull. repeat split.
  destruct (SourceStrategy (Spec b)); auto 10.
Qed.

Lemma sameRequest_set_Status b b' f :
  sameRequestUpToForcePull b b' -> sameRequestUpToForcePull b (set_Status f b').
Proof. intros Hsame. exact Hsame. Qed.

Lemma sameRequest_set_ForcePull b b' :
  sameRequestUpToForcePull b b' ->
  (exists ss, SourceStrategy (Spec b) = Some ss /\ Incremental ss = Some true) ->
  sameRequestUpToForcePull b (set_ForcePull false b').
Proof.
  unfold sameRequestUpToForcePull.
  intros (Hname & Hns & Hsrc & Hout & Hpc & Hss) (ss & Hb & Hinc).
  repeat split; try assumption. simpl. rewrite Hb in *.
  destruct (SourceStrategy (Spec b')) as [ss' |]; [| contradiction]. simpl.
  destruct Hss as (Hfrom & Hscripts & Hincr & Henv & _). auto 10.
Qed.

(** The body changes nothing of the request but the force-pull flag. *)
Lemma buildBody_request build w :
  wp (buildBody dockerSocket cgLimits)
     (fun _ s => sameRequestUpToForcePull build (st_build s))
     (fun _ s => sameRequestUpToForcePull build (st_build s))
     (initialState build w).
Proof.
  set (I := fun s : State W => sameRequestUpToForcePull build (st_build s)).
  set (J := fun (config : Config) =>
    cfg_Incremental config = true ->
    exists ss, SourceStrategy (Spec build) = Some ss /\ Incremental ss = Some true).
  unfold buildBody. do 3 wp_step; [| wp_step; apply sameRequest_refl].
  wp_stage I; [first [apply sameRequest_refl | apply sameRequest_set_Status, sameRequest_refl] ..
              | intros [push pushTag] s1 Hs1].
  apply wp_seq with (I := fun a s => I s /\ J (snd a)).
  { unfold_build. repeat wp_step; try exact Hs1.
    split; [exact Hs1 |]. unfold J. simpl. intros Hinc.
    destruct Hs1 as (_ & _ & _ & _ & _ & Hss).
    match goal with Hs : SourceStrategy (Spec (st_build s1)) = Some _ |- _ =>
      rewrite Hs in Hss end.
    destruct (SourceStrategy (Spec build)) as [ss |]; [| contradiction].
    exists ss. split; [reflexivity |].
    destruct Hss as (_ & _ & Hincr & _). rewrite <- Hincr.
    match goal with |- Incremental ?x = _ => destruct (Incremental x) as [[] |] end;
      congruence. }
  intros [buildTag config] s2 [Hs2 Hc2]. simpl in Hc2.
  wp_stage I; [exact Hs2 .. | intros _ s3 Hs3].
  wp_stage I;
    [first [exact Hs3 | apply sameRequest_set_ForcePull; [exact Hs3 | apply Hc2; assumption]] ..
    | intros config' s4 Hs4].
  wp_stage I; [exact Hs4 .. | intros config'' s5 Hs5].
  wp_stage I; [exact Hs5 .. | intros _ s6 Hs6].
  wp_stage I; [exact Hs6 .. | intros _ s7 Hs7].
  wp_stage I; [exact Hs7 .. | intros cw s8 Hs8].
  unfold_build. repeat wp_step; exact Hs8.
Qed.

(** C4, as amended.  [Build] leaves the name, the namespace and the spec
    of the build as the caller gave them, but for the force-pull flag of
    the source strategy, which it either leaves alone or, in an
    incremental build, sets to false. *)
Theorem Build_request_frame (build : Build) (w : W) :
  sameRequestUpToForcePull build
    (st_build (snd (S2IBuilder_Build dockerSocket cgLimits build w))).
Proof.
  rewrite Build_unfold. cbn [snd].
  pose proof (buildBody_request build w) as Hwp. unfold wp in Hwp.
  destruct (buildBody dockerSocket cgLimits (initialState build w)) as [r s1].
  apply (sameRequest_set_Status build (st_build s1)).
  destruct r; exact Hwp.
Qed.

End RunFacts.

(** ** The push tag *)

(** Closes a goal [Forall P trace] from the facts on the parts of the
    trace. *)
Ltac trace_solve :=
  try match goal with |- ?f _ => unfold f end;
  cbn [st_trace]; rewrite ?Forall_app; repeat split; try assumption;
  try (eapply Forall_impl; [eassumption | cbv beta; intros ? ->; simpl; auto]);
  try (repeat constructor; simpl; auto).

Section PushFacts.

Context {ext : Externals} {W : Type} {docker : DockerClient W}
  {factory : builderFactory W} {val : validator W} {platform : Platform W}.

Variable dockerSocket : string.
Variable cgLimits : option CGroupLimits.

Lemma Forall_nonempty_elem {A} (P : A -> Prop) (l : list A) :
  Forall P l -> l <> [] -> exists x, x ∈ l /\ P x.
Proof.
  destruct l as [| x l]; [congruence |].
  intros Hall _. inversion Hall; subst. exists x. split; [left | assumption].
Qed.

(** Without output reference the push tag is the name of the build and
    nothing is tagged or pushed. *)
Lemma buildBody_no_output build w :
  noOutputReference build = true ->
  let I := fun s : State W =>
    Forall notTagOrPush (st_trace s)
    /\ (SourceStrategy (Spec build) <> None ->
        OutputDockerImageReference (Status (st_build s)) = Name build) in
  wp (buildBody dockerSocket cgLimits) (fun _ => I) (fun _ => I) (initialState build w).
Proof.
  intros Hno I.
  set (J := fun s : State W =>
    Forall notTagOrPush (st_trace s)
    /\ OutputDockerImageReference (Status (st_build s)) = Name build).
  assert (HJI : forall s, J s -> I s) by (intros s [Ht Ho]; split; auto).
  unfold buildBody, initialState. do 3 wp_step;
    [| wp_step; split; [constructor | congruence]].
  apply wp_seq with (I := fun a s => a = (false, Name build) /\ J s).
  { unfold noOutputReference in Hno. unfold_build. repeat wp_step;
      try (split; [reflexivity | split; [constructor | reflexivity]]).
    all: congruence. }
  intros [push pushTag] s1 [Heq Hs1]. injection Heq as -> ->.
  destruct Hs1 as [Ht1 Ho1].
  wp_stage J; [try apply HJI; split; [trace_solve | exact Ho1] .. |
               intros [buildTag config] s2 [Ht2 Ho2]].
  wp_stage J; [try apply HJI; split; [trace_solve | exact Ho2] .. |
               intros _ s3 [Ht3 Ho3]].
  wp_stage J; [try apply HJI; split; [trace_solve | exact Ho3] .. |
               intros config' s4 [Ht4 Ho4]].
  wp_stage J; [try apply HJI; split; [trace_solve | exact Ho4] .. |
               intros config'' s5 [Ht5 Ho5]].
  wp_stage J; [try apply HJI; split; [trace_solve | exact Ho5] .. |
               intros _ s6 [Ht6 Ho6]].
  wp_stage J; [try apply HJI; split; [trace_solve | exact Ho6] .. |
               intros _ s7 [Ht7 Ho7]].
  wp_stage J; [try apply HJI; split; [trace_solve | exact Ho7] .. |
               intros cw s8 [Ht8 Ho8]].
  unfold_build. repeat wp_step. apply HJI. split; assumption.
Qed.

(** With an output reference the push tag is the output image reference
    of the status; every tag and push is for it, and a run that returns
    normally has tagged and pushed. *)
Lemma buildBody_output build w :
  noOutputReference build = false ->
  let pushTag := OutputDockerImageReference (Status build) in
  let I := fun s : State W =>
    Forall (tagsOrPushes pushTag) (st_trace s)
    /\ OutputDockerImageReference (Status (st_build s)) = pushTag in
  wp (buildBody dockerSocket cgLimits)
     (fun _ s => I s
                 /\ (exists buildTag, EvTagImage buildTag pushTag ∈ st_trace s)
                 /\ (exists auth, EvPushImage (pushOptions pushTag) auth ∈ st_trace s))
     (fun _ => I) (initialState build w).
Proof.
  intros Hno pushTag I.
  unfold buildBody, initialState. do 3 wp_step;
    [| wp_step; split; [constructor | reflexivity]].
  apply wp_seq with (I := fun a s => a = (true, pushTag) /\ I s).
  { unfold noOutputReference in Hno. unfold_build. repeat wp_step;
      try (split; [reflexivity | split; [constructor | reflexivity]]).
    all: congruence. }
  intros [push pushTag'] s1 [Heq Hs1]. injection Heq as -> ->.
  destruct Hs1 as [Ht1 Ho1].
  wp_stage I; [split; [trace_solve | exact Ho1] .. |
               intros [buildTag config] s2 [Ht2 Ho2]].
  wp_stage I; [split; [trace_solve | exact Ho2] .. | intros _ s3 [Ht3 Ho3]].
  wp_stage I; [split; [trace_solve | exact Ho3] .. | intros config' s4 [Ht4 Ho4]].
  wp_stage I; [split; [trace_solve | exact Ho4] .. | intros config'' s5 [Ht5 Ho5]].
  wp_stage I; [split; [trace_solve | exact Ho5] .. | intros _ s6 [Ht6 Ho6]].
  wp_stage I; [split; [trace_solve | exact Ho6] .. | intros _ s7 [Ht7 Ho7]].
  wp_stage I; [split; [trace_solve | exact Ho7] .. | intros cw s8 [Ht8 Ho8]].
  unfold_build. repeat wp_step.
  all: try (split; [trace_solve | exact Ho8]).
  all: match goal with
       | Hevs : Forall (fun ev => ev = EvPushImage _ _) ?evs, Hne : ?evs <> [] |- _ =>
           destruct (Forall_nonempty_elem _ _ Hevs Hne) as (ev & Hin & ->)
       end.
  all: split; [split; [trace_solve | exact Ho8] |].
  all: split;
    [exists buildTag
    | match goal with Hin : EvPushImage _ ?a ∈ _ |- _ => exists a end];
    cbn [st_trace]; set_solver.
Qed.

(** C5, as amended.  For a request without output reference the push tag
    is the name of the build and [Build] tags and pushes nothing.  For a
    request with an output reference the push tag is the output image
    reference that the status of the build holds when [Build] is called;
    every tag and push of the run is for it, and a run that returns
    normally has tagged the built image with it and pushed it. *)
Theorem push_tag_derivation (build : Build) (w : W) :
  let run := S2IBuilder_Build dockerSocket cgLimits build w in
  let final := snd run in
  (noOutputReference build = true ->
     Forall notTagOrPush (st_trace final)
     /\ (SourceStrategy (Spec build) <> None ->
         OutputDockerImageReference (Status (st_build final)) = Name build))
  /\ (noOutputReference build = false ->
      let pushTag := OutputDockerImageReference (Status build) in
      OutputDockerImageReference (Status (st_build final)) = pushTag
      /\ Forall (tagsOrPushes pushTag) (st_trace final)
      /\ (fst run = Ok tt ->
          (exists buildTag, EvTagImage buildTag pushTag ∈ st_trace final)
          /\ (exists auth, EvPushImage (pushOptions pushTag) auth ∈ st_trace final))).
Proof.
  simpl. rewrite Build_unfold. cbn [fst snd]. split; intros Hno.
  - pose proof (buildBody_no_output build w Hno) as Hwp. simpl in Hwp. unfold wp in Hwp.
    destruct (buildBody dockerSocket cgLimits (initialState build w)) as [r s1].
    assert (Hs1 : Forall notTagOrPush (st_trace s1)
                  /\ (SourceStrategy (Spec build) <> None ->
                      OutputDockerImageReference (Status (st_build s1)) = Name build))
      by (destruct r; exact Hwp).
    destruct Hs1 as [Ht Ho]. split; [| exact Ho].
    cbn [snd afterDeferred st_trace]. apply Forall_app. split; [exact Ht |].
    repeat constructor.
  - pose proof (buildBody_output build w Hno) as Hwp. simpl in Hwp. unfold wp in Hwp.
    destruct (buildBody dockerSocket cgLimits (initialState build w)) as [r s1].
    cbn [fst snd afterDeferred st_trace st_build].
    assert (Hs1 : Forall (tagsOrPushes (OutputDockerImageReference (Status build))) (st_trace s1)
                  /\ OutputDockerImageReference (Status (st_build s1))
                     = OutputDockerImageReference (Status build))
      by (destruct r as [[] | |]; [apply Hwp | exact Hwp | exact Hwp]).
    destruct Hs1 as [Ht Ho]. split; [exact Ho | split].
    + apply Forall_app. split; [exact Ht | repeat constructor].
    + intros ->. destruct Hwp as (_ & [bt Hbt] & [auth Hauth]).
      split; [exists bt | exists auth]; set_solver.
Qed.

End PushFacts.

(** ** The incremental fallback *)

Section FallbackFacts.

Context {ext : Externals} {W : Type} {docker : DockerClient W}
  {factory : builderFactory W} {val : validator W} {platform : Platform W}.

Variable dockerSocket : string.
Variable cgLimits : option CGroupLimits.





(** The registration when [client.Do] returns no response: the deferred
    [resp.Body.Close()] dereferences nil. *)
Lemma registerImage_no_response digest pushTag cw_password cw_workdir cw_env
    (s : State W) err w' :
  http_Post registrationURL
    (registrationPayload digest pushTag cw_password cw_workdir cw_env) (st_world s)
  = (None, err, w') ->
  fst (registerImage digest pushTag cw_password cw_workdir cw_env s) = Panic nilDereference.
Proof.
  intros Hpost. unfold registerImage, bind, emit, call. simpl. rewrite Hpost. reflexivity.
Qed.

(** The registration when [client.Do] returns a response, whatever its
    status code: the block goes on. *)
Lemma registerImage_response digest pushTag cw_password cw_workdir cw_env
    (s : State W) resp err w' :
  http_Post registrationURL
    (registrationPayload digest pushTag cw_password cw_workdir cw_env) (st_world s)
  = (Some resp, err, w') ->
  fst (registerImage digest pushTag cw_password cw_workdir cw_env s) = Ok tt.
Proof.
  intros Hpost. unfold registerImage, bind, emit, call. simpl. rewrite Hpost. reflexivity.
Qed.

End FallbackFacts.

(** * Further properties of [sti.go] *)

(** ** Context directory, volumes, proxy values, quotes *)

Section PureFacts.

Context {ext : Externals}.


Lemma copyToVolumeList_from (acc : list VolumeSpec) (l : list ImageSourcePath) :
  fold_left
    (fun volumeList mappedPath =>
       (volumeList ++ [{| vol_Source := SourcePath mappedPath;
                          vol_Destination := DestinationDir mappedPath;
                          vol_Keep := false |}])%list) l acc
  = (acc ++ map (fun p => {| vol_Source := SourcePath p;
                             vol_Destination := DestinationDir p;
                             vol_Keep := false |}) l)%list.
Proof.
  revert acc. induction l as [| p l IH]; intros acc; simpl.
  - rewrite app_nil_r. reflexivity.
  - rewrite IH, <- app_assoc. reflexivity.
Qed.

(** X2.  Lines 645-653.  [copyToVolumeList] gives one volume per mapped path,
    in the order of the paths, with the path's source and destination,
    and none of them is kept; the list of a concatenation is the
    concatenation of the lists. *)
Theorem copyToVolumeList_volumes (l l' : list ImageSourcePath) :
  length (copyToVolumeList l) = length l
  /\ map vol_Source (copyToVolumeList l) = map SourcePath l
  /\ map vol_Destination (copyToVolumeList l) = map DestinationDir l
  /\ Forall (fun v => vol_Keep v = false) (copyToVolumeList l)
  /\ copyToVolumeList (l ++ l') = (copyToVolumeList l ++ copyToVolumeList l')%list.
Proof.
  unfold copyToVolumeList. rewrite !copyToVolumeList_from. simpl.
  repeat split.
  - apply length_map.
  - rewrite map_map. reflexivity.
  - rewrite map_map. reflexivity.
  - apply Forall_map. apply Forall_true. reflexivity.
  - apply map_app.
Qed.

Lemma proxyValues_snoc env e :
  proxyValues (env ++ [e]) = scanProxyEnv (proxyValues env) e.
Proof. unfold proxyValues. rewrite fold_left_app. reflexivity. Qed.

(** X3.  Lines 614-621.  Of several settings of a proxy variable the last one
    in the strategy environment counts, whichever case form each uses;
    a variable of another name changes neither value. *)
Theorem proxy_last_setting_counts (env : list EnvVar) (e : EnvVar) :
  (isHTTPProxyName (env_Name e) = true ->
     proxyValues (env ++ [e]) = (env_Value e, snd (proxyValues env)))
  /\ (isHTTPSProxyName (env_Name e) = true ->
        proxyValues (env ++ [e]) = (fst (proxyValues env), env_Value e))
  /\ (isProxyVariable (env_Name e) = false ->
        proxyValues (env ++ [e]) = proxyValues env).
Proof.
  rewrite proxyValues_snoc. unfold scanProxyEnv, isHTTPProxyName, isHTTPSProxyName.
  repeat split.
  - intros ->. reflexivity.
  - intros Hs.
    destruct (String.eqb_spec (env_Name e) "HTTP_PROXY") as [Heq | _];
      [rewrite Heq in Hs; discriminate |].
    destruct (String.eqb_spec (env_Name e) "http_proxy") as [Heq | _];
      [rewrite Heq in Hs; discriminate |].
    simpl. rewrite Hs. reflexivity.
  - intros Hother. unfold isProxyVariable in Hother.
    apply orb_false_iff in Hother as [Hother H4].
    apply orb_false_iff in Hother as [Hother H3].
    apply orb_false_iff in Hother as [H1 H2].
    rewrite H1, H2, H3, H4. simpl. destruct (proxyValues env). reflexivity.
Qed.

(** X4.  Lines 622-640.  When a proxy value is set and every set value
    parses, the result is the configuration with the parsed URLs, a
    proxy that is not set being nil; when the HTTP value is set and does
    not parse, its error is the one returned, whatever the HTTPS value. *)
Theorem scriptProxyConfig_result (env : list EnvVar) :
  let httpProxy := fst (proxyValues env) in
  let httpsProxy := snd (proxyValues env) in
  ((httpProxy <> "" \/ httpsProxy <> "") ->
   (httpProxy = "" \/ snd (ParseProxyURL httpProxy) = None) ->
   (httpsProxy = "" \/ snd (ParseProxyURL httpsProxy) = None) ->
   scriptProxyConfig env = (Some (parsedProxyConfig httpProxy httpsProxy), None))
  /\ (forall e, httpProxy <> "" -> snd (ParseProxyURL httpProxy) = Some e ->
        scriptProxyConfig env = (None, Some e))
  /\ (forall e, httpsProxy <> "" -> snd (ParseProxyURL httpsProxy) = Some e ->
        (httpProxy = "" \/ snd (ParseProxyURL httpProxy) = None) ->
        scriptProxyConfig env = (None, Some e)).
Proof.
  simpl. unfold scriptProxyConfig, parsedProxyConfig. fold (proxyValues env).
  destruct (proxyValues env) as [v1 v2]. simpl.
  repeat split.
  - intros Hset H1 H2.
    destruct v1 as [| c1 v1], v2 as [| c2 v2]; simpl.
    + destruct Hset; congruence.
    + destruct H2 as [H2 | H2]; [discriminate |].
      destruct (ParseProxyURL (String c2 v2)) as [u [e |]]; [discriminate | reflexivity].
    + destruct H1 as [H1 | H1]; [discriminate |].
      destruct (ParseProxyURL (String c1 v1)) as [u [e |]]; [discriminate | reflexivity].
    + destruct H1 as [H1 | H1]; [discriminate |].
      destruct H2 as [H2 | H2]; [discriminate |].
      destruct (ParseProxyURL (String c1 v1)) as [u [e |]]; [discriminate |].
      simpl. destruct (ParseProxyURL (String c2 v2)) as [u' [e |]]; [discriminate | reflexivity].
  - intros e Hne Herr. destruct v1 as [| c1 v1]; [congruence |]. simpl.
    destruct (ParseProxyURL (String c1 v1)) as [u [e' |]]; simpl in Herr; congruence.
  - intros e Hne Herr H1. destruct v2 as [| c2 v2]; [congruence |].
    destruct v1 as [| c1 v1]; simpl.
    + destruct (ParseProxyURL (String c2 v2)) as [u [e' |]]; simpl in Herr; congruence.
    + destruct H1 as [H1 | H1]; [discriminate |].
      destruct (ParseProxyURL (String c1 v1)) as [u [e' |]]; [discriminate |]. simpl.
      destruct (ParseProxyURL (String c2 v2)) as [u' [e' |]]; simpl in Herr; congruence.
Qed.

Lemma Contains_char_cons d s c :
  GoStrings.Contains (String d s) (String c EmptyString)
  = bool_decide (c = d) || GoStrings.Contains s (String c EmptyString).
Proof.
  change (GoStrings.Contains (String d s) (String c EmptyString))
    with (GoStrings.HasPrefix (String d s) (String c EmptyString)
          || GoStrings.Contains s (String c EmptyString)).
  rewrite HasPrefix_char. reflexivity.
Qed.

(** X5.  Line 431.  Replacing a one-byte string by nothing leaves no
    occurrence of it: the working directory handed to the registration
    holds no quote. A text without that byte is not changed. *)
Theorem ReplaceAll_byte_removed (s : string) (c : ascii) :
  GoStrings.Contains (GoStrings.ReplaceAll s (String c EmptyString) "") (String c EmptyString)
  = false
  /\ (GoStrings.Contains s (String c EmptyString) = false ->
        GoStrings.ReplaceAll s (String c EmptyString) "" = s).
Proof.
  split; [| apply ReplaceAll_absent].
  unfold GoStrings.ReplaceAll. induction s as [| d s IH]; [reflexivity |].
  rewrite replaceFrom_cons, HasPrefix_char.
  destruct (bool_decide (c = d)) eqn:Hcd.
  - simpl. exact IH.
  - rewrite Contains_char_cons, Hcd, IH. reflexivity.
Qed.

End PureFacts.
(** ** Inspection *)

Section InspectionFacts.

Context {ext : Externals} {W : Type} {docker : DockerClient W}
  {factory : builderFactory W} {val : validator W} {platform : Platform W}.

(** X6.  Lines 659-685.  When the inspection of an image fails,
    [isImagePresent] answers false, [getAssembleUser] and
    [getImageLabels] return the error, and the block of lines 267-300
    returns it.  When the inspection returns neither an image nor an
    error, [isImagePresent] answers false as well, while
    [getAssembleUser] and [getImageLabels] dereference the nil image. *)
Theorem inspection_failures (imageTag : string) (s : State W) image err w' :
  InspectImage imageTag (st_world s) = (image, err, w') ->
  (forall e, err = Some e ->
     fst (isImagePresent imageTag s) = Ok false
     /\ fst (getAssembleUser imageTag s) = Ok ("", Some e)
     /\ fst (getImageLabels imageTag s) = Ok (∅, Some e)
     /\ forall config, BuilderImage config = imageTag ->
          fst (introspectBuilderImage config s) = Err SiteAssembleUser e)
  /\ (err = None -> image = None ->
        fst (isImagePresent imageTag s) = Ok false
        /\ fst (getAssembleUser imageTag s) = Panic nilDereference
        /\ fst (getImageLabels imageTag s) = Panic nilDereference).
Proof.
  intros Hinspect. split.
  - intros e ->.
    unfold isImagePresent, getAssembleUser, getImageLabels, introspectBuilderImage,
      getAssembleUser, bind, call, ret, fail.
    repeat split; try (rewrite Hinspect; reflexivity).
    intros config ->. rewrite Hinspect. reflexivity.
  - intros -> ->.
    unfold isImagePresent, getAssembleUser, getImageLabels, bind, call, ret, panic.
    rewrite Hinspect. repeat split.
Qed.

End InspectionFacts.

(** ** What a run calls *)

Section CallFacts.

Context {ext : Externals} {W : Type} {docker : DockerClient W}
  {factory : builderFactory W} {val : validator W} {platform : Platform W}.

Variable dockerSocket : string.
Variable cgLimits : option CGroupLimits.

(** X7.  Lines 147-149.  Without source strategy [Build] returns its error at
    once: nothing is called but the deferred status update, and the
    build is changed in its status stages only. *)
Theorem Build_without_source_strategy (build : Build) (w : W) :
  SourceStrategy (Spec build) = None ->
  let run := S2IBuilder_Build dockerSocket cgLimits build w in
  fst run = Err SiteSourceStrategy
              "the source to image builder must be used with the source strategy"
  /\ st_trace (snd run) = [EvStatusUpdate (st_build (snd run))]
  /\ st_build (snd run)
     = set_Status (with_Stages (AppendStageAndStepInfo (Stages (Status build)) [])) build.
Proof.
  intros Hnone. simpl. rewrite Build_unfold.
  unfold buildBody, bind, getBuild, initialState, fail. simpl. rewrite Hnone.
  repeat split.
Qed.



End CallFacts.
(** ** Repackaging, pulls and the digest *)

Section BranchFacts.

Context {ext : Externals} {W : Type} {docker : DockerClient W}
  {factory : builderFactory W} {val : validator W} {platform : Platform W}.

Variable dockerSocket : string.
Variable cgLimits : option CGroupLimits.



(** The test of lines 234 and 245 when force-pull is off and the engine
    holds the image. *)
Lemma mustPull_present imageTag (s : State W) ss :
  SourceStrategy (Spec (st_build s)) = Some ss ->
  ForcePull ss = false ->
  (forall w0, inspectedPresent (fst (InspectImage imageTag w0)) = true) ->
  wp (mustPull imageTag)
     (fun needed s' => needed = false /\ st_build s' = st_build s
                       /\ st_trace s' = st_trace s)
     (fun _ _ => False) s.
Proof.
  intros Hss Hforce Hpresent. unfold mustPull, getStrategy, isImagePresent.
  repeat wp_step; try congruence.
  repeat split.
  match goal with
  | Heq : InspectImage _ ?w0 = _ |- _ =>
      pose proof (Hpresent w0) as Hp; rewrite Heq in Hp; simpl in Hp; revert Hp
  end.
  repeat match goal with
         | |- context [match ?x with _ => _ end] => destruct x
         end; simpl in *; congruence.
Qed.

Lemma buildBody_no_pull build w ss :
  SourceStrategy (Spec build) = Some ss ->
  ForcePull ss = false ->
  (forall imageTag w0, inspectedPresent (fst (InspectImage imageTag w0)) = true) ->
  let I := fun s : State W =>
    Forall notPull (st_trace s) /\ SourceStrategy (Spec (st_build s)) = Some ss in
  wp (buildBody dockerSocket cgLimits) (fun _ => I) (fun _ => I) (initialState build w).
Proof.
  intros Hss Hforce Hpresent I.
  unfold buildBody, initialState. do 2 wp_step. rewrite Hss.
  wp_stage I; [split; [constructor | exact Hss] .. | intros [push pushTag] s1 [Ht1 Hs1]].
  wp_stage I; [split; [trace_solve | simpl; congruence] .. | intros [buildTag config] s2 [Ht2 Hs2]].
  apply wp_seq with (I := fun _ => I).
  { unfold pullBuilderImage. apply wp_bind. eapply wp_mono.
    - apply (mustPull_present _ s2 ss Hs2 Hforce). apply Hpresent.
    - intros needed s' (-> & Hb & Ht). wp_simpl. apply wp_ret. split.
      + rewrite Ht. exact Ht2.
      + rewrite Hb. exact Hs2.
    - intros x s' []. }
  intros _ s3 [Ht3 Hs3].
  apply wp_seq with (I := fun _ => I).
  { unfold pullIncrementalImage. destruct (cfg_Incremental config).
    - apply wp_bind. eapply wp_mono.
      + apply (mustPull_present _ s3 ss Hs3 Hforce). apply Hpresent.
      + intros needed s' (-> & Hb & Ht). wp_simpl. apply wp_ret. split.
        * rewrite Ht. exact Ht3.
        * rewrite Hb. exact Hs3.
      + intros x s' [].
    - apply wp_ret. split; assumption. }
  intros config' s4 [Ht4 Hs4].
  wp_stage I; [split; [trace_solve | simpl; congruence] .. | intros config'' s5 [Ht5 Hs5]].
  wp_stage I; [split; [trace_solve | simpl; congruence] .. | intros _ s6 [Ht6 Hs6]].
  wp_stage I; [split; [trace_solve | simpl; congruence] .. | intros _ s7 [Ht7 Hs7]].
  wp_stage I; [split; [trace_solve | simpl; congruence] .. | intros cw s8 [Ht8 Hs8]].
  unfold_build. repeat wp_step; (split; [trace_solve | simpl; congruence]).
Qed.

(** X10.  Lines 234-265.  When force-pull is off and the engine holds every
    image it is asked about, the run pulls nothing and leaves the
    source strategy of the request as it is. *)
Theorem no_pull_when_images_present (build : Build) (w : W) ss :
  SourceStrategy (Spec build) = Some ss ->
  ForcePull ss = false ->
  (forall imageTag w0, inspectedPresent (fst (InspectImage imageTag w0)) = true) ->
  let final := snd (S2IBuilder_Build dockerSocket cgLimits build w) in
  Forall notPull (st_trace final)
  /\ SourceStrategy (Spec (st_build final)) = Some ss.
Proof.
  intros Hss Hforce Hpresent. simpl. rewrite Build_unfold. cbn [snd].
  pose proof (buildBody_no_pull build w ss Hss Hforce Hpresent) as Hwp.
  simpl in Hwp. unfold wp in Hwp.
  destruct (buildBody dockerSocket cgLimits (initialState build w)) as [r s1].
  assert (Hs1 : Forall notPull (st_trace s1)
                /\ SourceStrategy (Spec (st_build s1)) = Some ss)
    by (destruct r; exact Hwp).
  destruct Hs1 as [Ht Hs]. split; [| exact Hs].
  cbn [afterDeferred st_trace]. apply Forall_app. split; [exact Ht | repeat constructor].
Qed.

Lemma buildBody_digest build w :
  let unchanged := fun s : State W =>
    Output_To (Status (st_build s)) = Output_To (Status build) in
  wp (buildBody dockerSocket cgLimits)
     (fun _ s => unchanged s
                 \/ exists digest, digest <> ""
                      /\ Output_To (Status (st_build s)) = Some {| ImageDigest := digest |})
     (fun _ => unchanged) (initialState build w).
Proof.
  intros I.
  unfold buildBody. do 3 wp_step; [| wp_step; reflexivity].
  wp_stage I; [reflexivity .. | intros [push pushTag] s1 Hs1].
  wp_stage I; [exact Hs1 .. | intros [buildTag config] s2 Hs2].
  wp_stage I; [exact Hs2 .. | intros _ s3 Hs3].
  wp_stage I; [exact Hs3 .. | intros config' s4 Hs4].
  wp_stage I; [exact Hs4 .. | intros config'' s5 Hs5].
  wp_stage I; [exact Hs5 .. | intros _ s6 Hs6].
  wp_stage I; [exact Hs6 .. | intros _ s7 Hs7].
  wp_stage I; [exact Hs7 .. | intros cw s8 Hs8].
  unfold_build. repeat wp_step.
  all: first
    [ exact Hs8
    | left; exact Hs8
    | right; eexists; split; [apply length_pos_iff; eassumption | reflexivity] ].
Qed.

(** X11.  Lines 493-515.  The digest of the output is written into the status
    only by a run that returns normally, and then it is a non-empty
    digest; a run that returns an error or panics leaves the output of
    the status as it was. *)
Theorem digest_recorded_only_on_success (build : Build) (w : W) :
  let run := S2IBuilder_Build dockerSocket cgLimits build w in
  let output := Output_To (Status (st_build (snd run))) in
  (fst run <> Ok tt -> output = Output_To (Status build))
  /\ (output = Output_To (Status build)
      \/ exists digest, digest <> "" /\ output = Some {| ImageDigest := digest |}).
Proof.
  simpl. rewrite Build_unfold. cbn [fst snd].
  pose proof (buildBody_digest build w) as Hwp. simpl in Hwp. unfold wp in Hwp.
  destruct (buildBody dockerSocket cgLimits (initialState build w)) as [r s1].
  cbn [fst snd afterDeferred st_build finalBuild]. simpl.
  destruct r as [[] | site e | msg].
  - split; [congruence | exact Hwp].
  - split; [intros _; exact Hwp | left; exact Hwp].
  - split; [intros _; exact Hwp | left; exact Hwp].
Qed.

End BranchFacts.
(** ** The order of the calls and the status updates *)


Section OrderFacts.

Context {ext : Externals} {W : Type} {docker : DockerClient W}
  {factory : builderFactory W} {val : validator W} {platform : Platform W}.

Variable dockerSocket : string.
Variable cgLimits : option CGroupLimits.



Lemma buildBody_status_updates build w :
  let quiet := fun s : State W => Forall notStatusUpdate (st_trace s) in
  let reported := fun s : State W =>
    exists earlier, Forall notStatusUpdate earlier
      /\ st_trace s = (earlier ++ [EvStatusUpdate (st_build s)])%list in
  wp (buildBody dockerSocket cgLimits)
     (fun _ s => quiet s \/ reported s)
     (fun x s => match x with
                 | XErr site _ => if reportsBeforeReturn site then reported s else quiet s
                 | XPanic _ => quiet s
                 end)
     (initialState build w).
Proof.
  intros I R.
  unfold buildBody. do 3 wp_step; [| wp_step; constructor].
  wp_stage I; [constructor .. | intros [push pushTag] s1 Hs1].
  wp_stage I; [cbn [reportsBeforeReturn]; trace_solve .. | intros [buildTag config] s2 Hs2].
  wp_stage I; [cbn [reportsBeforeReturn]; trace_solve .. | intros _ s3 Hs3].
  wp_stage I; [cbn [reportsBeforeReturn]; trace_solve .. | intros config' s4 Hs4].
  wp_stage I; [cbn [reportsBeforeReturn]; trace_solve .. | intros config'' s5 Hs5].
  wp_stage I; [cbn [reportsBeforeReturn];
               first [eexists; split; [| reflexivity]; trace_solve | trace_solve] ..
              | intros _ s6 Hs6].
  wp_stage I; [cbn [reportsBeforeReturn]; trace_solve .. | intros _ s7 Hs7].
  wp_stage I; [cbn [reportsBeforeReturn]; trace_solve .. | intros cw s8 Hs8].
  unfold_build. repeat wp_step.
  all: cbn [reportsBeforeReturn].
  all: first
    [ eexists; split; [| reflexivity]; trace_solve
    | right; eexists; split; [| reflexivity]; trace_solve
    | left; trace_solve
    | trace_solve ].
Qed.

Lemma statusUpdates_quiet (l : list Event) :
  Forall notStatusUpdate l -> statusUpdates l = [].
Proof.
  induction 1 as [| ev l Hev _ IH]; [reflexivity |].
  unfold statusUpdates in *. destruct ev; simpl; try exact IH. contradiction.
Qed.

(** X13.  Lines 142-145, 322, 348, 408, 489 and 514.  The status sink is
    called once, by the deferred function, in every run that panics or
    returns an error other than that of the S2I builder factory, of the
    assembly or of the push (the failed engine build, which sets the
    failed phase, included): for those three it is called twice, before
    the return and by the deferred function, with the same phase,
    reason and message.  A run that returns normally calls it once or
    twice. *)
Theorem status_sink_calls (build : Build) (w : W) :
  let run := S2IBuilder_Build dockerSocket cgLimits build w in
  let final := st_build (snd run) in
  let updates := statusUpdates (st_trace (snd run)) in
  let twice := exists b, updates = [b; final] /\ statusTriple b = statusTriple final
                         /\ Output_To (Status b) = Output_To (Status final) in
  match fst run with
  | Ok _ => updates = [final] \/ twice
  | Err site _ => if reportsBeforeReturn site then twice else updates = [final]
  | Panic _ => updates = [final]
  end.
Proof.
  simpl. rewrite Build_unfold. cbn [fst snd].
  pose proof (buildBody_status_updates build w) as Hwp. simpl in Hwp. unfold wp in Hwp.
  destruct (buildBody dockerSocket cgLimits (initialState build w)) as [r s1].
  cbn [fst snd afterDeferred st_trace st_build].
  assert (Hquiet : Forall notStatusUpdate (st_trace s1) ->
            statusUpdates (st_trace s1 ++ [EvStatusUpdate (finalBuild s1)]) = [finalBuild s1]).
  { intros Hq. unfold statusUpdates. rewrite omap_app. fold (statusUpdates (st_trace s1)).
    rewrite (statusUpdates_quiet _ Hq). reflexivity. }
  assert (Hreported :
            (exists earlier, Forall notStatusUpdate earlier
               /\ st_trace s1 = (earlier ++ [EvStatusUpdate (st_build s1)])%list) ->
            exists b, statusUpdates (st_trace s1 ++ [EvStatusUpdate (finalBuild s1)])
                      = [b; finalBuild s1]
                      /\ statusTriple b = statusTriple (finalBuild s1)
                      /\ Output_To (Status b) = Output_To (Status (finalBuild s1))).
  { intros (earlier & Hq & Htrace). exists (st_build s1). rewrite Htrace.
    unfold statusUpdates. rewrite !omap_app. fold (statusUpdates earlier).
    rewrite (statusUpdates_quiet _ Hq). repeat split. }
  destruct r as [[] | site e | msg].
  - destruct Hwp as [Hq | Hr]; [left; apply Hquiet, Hq | right; apply Hreported, Hr].
  - destruct (reportsBeforeReturn site); [apply Hreported, Hwp | apply Hquiet, Hwp].
  - apply Hquiet, Hwp.
Qed.

End OrderFacts.
(** ** Timing, engine options, incremental builds *)

Section EngineFacts.

Context {ext : Externals} {W : Type} {docker : DockerClient W}
  {factory : builderFactory W} {val : validator W} {platform : Platform W}.

Variable dockerSocket : string.
Variable cgLimits : option CGroupLimits.

Lemma buildBody_timed build w :
  wp (buildBody dockerSocket cgLimits)
     (fun _ _ => True)
     (fun x s => match x with
                 | XErr site _ => timedFailure site (st_stages s)
                 | XPanic _ => True
                 end)
     (initialState build w).
Proof.
  set (I := fun s : State W => st_stages s = []).
  set (T := fun s : State W => True).
  unfold buildBody. do 3 wp_step; [| wp_step; reflexivity].
  wp_stage I; [reflexivity .. | intros [push pushTag] s1 Hs1].
  wp_stage I; [first [exact Hs1 | exact Logic.I] .. | intros [buildTag config] s2 Hs2].
  wp_stage T;
    [first [exact Logic.I | cbn [timedFailure]; rewrite Hs2; do 2 eexists; reflexivity] ..
    | intros _ s3 _].
  wp_stage T; [exact Logic.I .. | intros config' s4 _].
  wp_stage T; [exact Logic.I .. | intros config'' s5 _].
  wp_stage T; [exact Logic.I .. | intros _ s6 _].
  wp_stage T; [first [exact Logic.I | do 3 eexists; reflexivity] .. | intros _ s7 _].
  wp_stage T; [exact Logic.I .. | intros cw s8 _].
  unfold_build. repeat wp_step; first [exact Logic.I | do 3 eexists; reflexivity].
Qed.

(** X14.  Lines 235-241, 382-409 and 480-491.  A step that fails is still
    timed: when [Build] returns the error of the builder-image pull, of
    the engine build or of the push, the stages appended to the status
    end with that step (for the pull it is the only one); when it
    returns one of its first three errors, no step is appended. *)
Theorem failed_steps_are_timed (build : Build) (w : W) site e final :
  S2IBuilder_Build dockerSocket cgLimits build w = (Err site e, final) ->
  exists stages,
    timedFailure site stages
    /\ Stages (Status (st_build final))
       = AppendStageAndStepInfo (Stages (Status build)) stages.
Proof.
  rewrite Build_unfold. intros Hrun.
  pose proof (buildBody_timed build w) as Hwp. unfold wp in Hwp.
  pose proof (buildBody_Stages dockerSocket cgLimits build w) as Hst. unfold wp in Hst.
  destruct (buildBody dockerSocket cgLimits (initialState build w)) as [r s1].
  simpl in Hrun. injection Hrun as -> <-.
  exists (st_stages s1). split; [exact Hwp |].
  simpl. rewrite Hst. reflexivity.
Qed.

Lemma buildBody_engine_options build w ss :
  SourceStrategy (Spec build) = Some ss ->
  wp (buildBody dockerSocket cgLimits)
     (fun _ s => Forall (engineBuildCall cgLimits (ForcePull ss)) (st_trace s))
     (fun _ s => Forall (engineBuildCall cgLimits (ForcePull ss)) (st_trace s))
     (initialState build w).
Proof.
  intros Hss.
  set (J := fun s : State W => Forall (engineBuildCall cgLimits (ForcePull ss)) (st_trace s)).
  set (I := fun s : State W => J s /\ pullOnlyIfAsked ss s).
  unfold buildBody, initialState. do 2 wp_step. rewrite Hss.
  assert (H0 : pullOnlyIfAsked ss (initialState build w)).
  { intros ss' Hs' Hf. simpl in Hs'. congruence. }
  wp_stage I; [split; [constructor | exact H0] .. | intros [push pushTag] s1 [Ht1 Hp1]].
  wp_stage I; [first [split; [trace_solve | exact Hp1] | trace_solve] ..
              | intros [buildTag config] s2 [Ht2 Hp2]].
  wp_stage I; [first [split; [trace_solve | exact Hp2] | trace_solve] ..
              | intros _ s3 [Ht3 Hp3]].
  wp_stage I;
    [first [ split; [trace_solve | first [exact Hp3 | intros ss' Hs' Hf; simpl in Hs';
               match goal with Heq : SourceStrategy _ = Some _ |- _ =>
                 rewrite Heq in Hs' end; simpl in Hs'; injection Hs' as <-;
               simpl in Hf; discriminate Hf]]
           | trace_solve ] ..
    | intros config' s4 [Ht4 Hp4]].
  wp_stage I; [first [split; [trace_solve | exact Hp4] | trace_solve] ..
              | intros config'' s5 [Ht5 Hp5]].
  wp_stage I; [first [split; [trace_solve | exact Hp5] | trace_solve] ..
              | intros _ s6 [Ht6 Hp6]].
  apply wp_seq with (I := fun _ => I).
  { unfold_build. repeat wp_step.
    all: try (split; [| exact Hp6]).
    all: unfold J; cbn [st_trace]; rewrite ?Forall_app; repeat split; try assumption.
    all: constructor; [| constructor].
    all: simpl; first [exact Logic.I | repeat split; try reflexivity].
    all: first
      [ intros Hpull; eapply Hp6; [eassumption | exact Hpull]
      | left; split; [reflexivity | destruct cgLimits; simpl; auto 10] ]. }
  intros _ s7 [Ht7 Hp7].
  apply wp_seq with (I := fun _ => I).
  { unfold_build. repeat wp_step.
    all: try (split; [| exact Hp7]).
    all: unfold J; cbn [st_trace]; rewrite ?Forall_app; repeat split; try assumption.
    all: constructor; [| constructor].
    all: simpl; first [exact Logic.I | repeat split; try reflexivity].
    all: first
      [ intros Hpull; eapply Hp7; [eassumption | exact Hpull]
      | right; simpl; auto 10 ]. }
  intros cw s8 [Ht8 Hp8].
  unfold_build. repeat wp_step; trace_solve.
Qed.

(** X15.  Lines 352-380, 401, 443-456.  Every engine build of a run has the
    fixed options of the source, pulls the base layers only when the
    request set force-pull, and either builds the generated recipe with
    the resource limits of the builder passed through unchanged, or
    builds the repackaging context without limits and credentials. *)
Theorem engine_build_options (build : Build) (w : W) ss :
  SourceStrategy (Spec build) = Some ss ->
  Forall (engineBuildCall cgLimits (ForcePull ss))
         (st_trace (snd (S2IBuilder_Build dockerSocket cgLimits build w))).
Proof.
  intros Hss. rewrite Build_unfold. cbn [snd].
  pose proof (buildBody_engine_options build w ss Hss) as Hwp. unfold wp in Hwp.
  destruct (buildBody dockerSocket cgLimits (initialState build w)) as [r s1].
  cbn [afterDeferred st_trace]. apply Forall_app. split; [| repeat constructor].
  destruct r; exact Hwp.
Qed.

(** Lines 244-265 when the pull of the previous output image is attempted
    and succeeds: the configuration stays as it is and the force-pull
    flag of the request is cleared. *)
Lemma pullIncrementalImage_success config (s : State W) ss :
  cfg_Incremental config = true ->
  SourceStrategy (Spec (st_build s)) = Some ss ->
  (ForcePull ss = true
   \/ forall w0, inspectedPresent (fst (InspectImage (IncrementalFromTag config) w0)) = false) ->
  (forall searchPaths w0,
     fst (PullImage (pullOptions (IncrementalFromTag config)) searchPaths w0) = None) ->
  wp (pullIncrementalImage config)
     (fun config' s' =>
        config' = config
        /\ st_build s' = set_ForcePull false (st_build s)
        /\ exists evs, st_trace s' = (st_trace s ++ evs)%list
             /\ Forall (fun ev => exists searchPaths,
                          ev = EvPullImage (pullOptions (IncrementalFromTag config)) searchPaths)
                       evs)
     (fun _ _ => False) s.
Proof.
  intros Hinc Hss Hattempt Hpull.
  unfold pullIncrementalImage. rewrite Hinc.
  unfold mustPull, getStrategy, isImagePresent.
  repeat first
    [ apply wp_pullImage_result with (P := fun err => err = None);
      [intros; apply Hpull | intros ? ? ? ? ? ?]
    | wp_step ].
  all: try congruence.
  all: try (split; [reflexivity | split; [reflexivity | eexists; split; [reflexivity |]]];
            eapply Forall_impl; [eassumption | cbv beta; intros ? ->; eexists; reflexivity]).
  exfalso. injection Hss as <-.
  destruct Hattempt as [Hforce | Habsent]; [congruence |].
  match goal with
  | Hcall : InspectImage _ (st_world s) = _ |- _ =>
      specialize (Habsent (st_world s)); rewrite Hcall in Habsent
  end.
  match goal with
  | Hneg : negb _ = false |- _ => revert Hneg Habsent
  end.
  repeat match goal with
         | |- context [match ?x with _ => _ end] => destruct x
         end; simpl; congruence.
Qed.

Lemma incremental_if (b : bool) (c c' : Config) t :
  cfg_Incremental c = true /\ IncrementalFromTag c = t ->
  cfg_Incremental c' = true /\ IncrementalFromTag c' = t ->
  cfg_Incremental (if b then c else c') = true
  /\ IncrementalFromTag (if b then c else c') = t.
Proof. destruct b; auto. Qed.

Lemma forcePullOff_set (s : State W) g w0 t :
  forcePullOff (W := W)
               {| st_build := set_ForcePull false (st_build s);
                  st_stages := g; st_world := w0; st_trace := t |}.
Proof.
  intros ss' Hs'. simpl in Hs'.
  destruct (SourceStrategy (Spec (st_build s))) as [ss0 |]; simpl in Hs'; [| discriminate].
  injection Hs' as <-. reflexivity.
Qed.

Lemma buildBody_incremental build w ss :
  SourceStrategy (Spec build) = Some ss ->
  Incremental ss = Some true ->
  (ForcePull ss = true
   \/ forall w0, inspectedPresent (fst (InspectImage (pushTagOf build) w0)) = false) ->
  (forall searchPaths w0,
     fst (PullImage (pullOptions (pushTagOf build)) searchPaths w0) = None) ->
  wp (buildBody dockerSocket cgLimits)
     (fun _ s => Forall (incrementalCall (pushTagOf build)) (st_trace s))
     (fun _ s => Forall (incrementalCall (pushTagOf build)) (st_trace s))
     (initialState build w).
Proof.
  intros Hss Hinc Hattempt Hpull.
  set (Inv := fun s : State W => Forall (incrementalCall (pushTagOf build)) (st_trace s)).
  set (S := fun s : State W => SourceStrategy (Spec (st_build s)) = Some ss).
  unfold buildBody, initialState. do 2 wp_step. rewrite Hss.
  apply wp_seq with (I := fun a s => snd a = pushTagOf build /\ S s /\ Inv s).
  { unfold pushTagOf, noOutputReference. unfold_build. repeat wp_step.
    all: split; [reflexivity | split; [exact Hss | constructor]]. }
  intros [push pushTag] s1 (Htag & Hs1 & Ht1). simpl in Htag. subst pushTag.
  apply wp_seq with (I := fun a s =>
    (cfg_Incremental (snd a) = true /\ IncrementalFromTag (snd a) = pushTagOf build)
    /\ S s /\ Inv s).
  { unfold_build. repeat wp_step; try exact Ht1.
    split; [| split; [exact Hs1 | exact Ht1]].
    simpl. split; [| reflexivity].
    match goal with
    | Heq : SourceStrategy (Spec (st_build s1)) = Some ?x |- _ =>
        unfold S in Hs1; rewrite Heq in Hs1; injection Hs1 as ->
    end.
    rewrite Hinc. reflexivity. }
  intros [buildTag config] s2 ((Hc1 & Hc2) & Hs2 & Ht2). simpl in Hc1, Hc2.
  apply wp_seq with (I := fun _ s => S s /\ Inv s).
  { unfold_build. repeat wp_step.
    all: first [split; [exact Hs2 | trace_solve] | trace_solve]. }
  intros _ s3 (Hs3 & Ht3).
  apply wp_seq with (I := fun c s =>
    (cfg_Incremental c = true /\ IncrementalFromTag c = pushTagOf build)
    /\ forcePullOff s /\ Inv s).
  { eapply wp_mono.
    - apply (pullIncrementalImage_success config s3 ss Hc1 Hs3);
        rewrite Hc2; assumption.
    - intros c s' (-> & Hb & evs & Htrace & Hevs). split; [split; assumption |]. split.
      + destruct s' as [b' g' w' t']. simpl in Hb. subst b'. apply forcePullOff_set.
      + unfold Inv. rewrite Htrace. apply Forall_app. split; [exact Ht3 |].
        eapply Forall_impl; [exact Hevs | intros ? [sp ->]; exact Logic.I].
    - intros x s' []. }
  intros config' s4 (Hc' & Hf4 & Ht4).
  apply wp_seq with (I := fun c s =>
    (cfg_Incremental c = true /\ IncrementalFromTag c = pushTagOf build)
    /\ forcePullOff s /\ Inv s).
  { unfold_build. repeat wp_step; try exact Ht4.
    all: split; [| split; [exact Hf4 | exact Ht4]].
    all: simpl; repeat apply incremental_if; exact Hc'. }
  intros config'' s5 ((Hi & Hf) & Hf5 & Ht5).
  apply wp_seq with (I := fun _ s => forcePullOff s /\ Inv s).
  { unfold_build. repeat wp_step.
    all: first [split; [exact Hf5 | trace_solve] | trace_solve]. }
  intros _ s6 (Hf6 & Ht6).
  apply wp_seq with (I := fun _ s => forcePullOff s /\ Inv s).
  { unfold_build. repeat wp_step.
    all: try (split; [exact Hf6 |]).
    all: unfold Inv; cbn [st_trace]; rewrite ?Forall_app; repeat split; try assumption.
    all: constructor; [| constructor].
    all: simpl; first [exact Logic.I | eapply Hf6; eassumption]. }
  intros _ s7 (Hf7 & Ht7).
  apply wp_seq with (I := fun _ s => Inv s).
  { unfold_build. repeat wp_step.
    all: unfold Inv; cbn [st_trace]; rewrite ?Forall_app; repeat split; try assumption.
    all: constructor; [| constructor].
    all: simpl; first [exact Logic.I | eapply Hf7; eassumption]. }
  intros cw s8 Ht8.
  unfold_build. repeat wp_step; trace_solve.
Qed.

(** X16.  Lines 244-265, 360 and 451.  In an incremental build in which the
    pull of the previous output image is attempted and succeeds, every
    configuration that the run validates or hands to the S2I builder
    factory or to the assembly is incremental from the push tag, and no engine build pulls the base
    layers, whatever the force-pull flag of the request was. *)
Theorem incremental_pull_success_stays_incremental (build : Build) (w : W) ss :
  SourceStrategy (Spec build) = Some ss ->
  Incremental ss = Some true ->
  (ForcePull ss = true
   \/ forall w0, inspectedPresent (fst (InspectImage (pushTagOf build) w0)) = false) ->
  (forall searchPaths w0,
     fst (PullImage (pullOptions (pushTagOf build)) searchPaths w0) = None) ->
  Forall (incrementalCall (pushTagOf build))
         (st_trace (snd (S2IBuilder_Build dockerSocket cgLimits build w))).
Proof.
  intros Hss Hinc Hattempt Hpull. rewrite Build_unfold. cbn [snd].
  pose proof (buildBody_incremental build w ss Hss Hinc Hattempt Hpull) as Hwp.
  unfold wp in Hwp.
  destruct (buildBody dockerSocket cgLimits (initialState build w)) as [r s1].
  cbn [afterDeferred st_trace]. apply Forall_app. split; [| repeat constructor].
  destruct r; exact Hwp.
Qed.

End EngineFacts.

(** ** The calls of a run that goes through *)

(** Closes [l `sublist_of` trace] for a trace that extends one of which a
    prefix of [l] is known to be a sublist. *)
Ltac sublist_tail :=
  simpl; solve [repeat first [apply sublist_nil_l | apply sublist_skip | apply sublist_cons]].

Ltac sublist_solve :=
  cbn [st_trace]; rewrite <- ?app_assoc;
  first
    [ assumption
    | apply sublist_inserts_r; assumption
    | match goal with
      | H : ?l `sublist_of` ?t |- ?l' `sublist_of` (?t ++ ?rest)%list =>
          let k := eval cbn in (drop (length l) l') in
          apply (sublist_app l t k rest H); sublist_tail
      end
    | apply sublist_inserts_l; sublist_tail ].

Section PipelineFacts.

Context {ext : Externals} {W : Type} {docker : DockerClient W}
  {factory : builderFactory W} {val : validator W} {platform : Platform W}.

Variable dockerSocket : string.
Variable cgLimits : option CGroupLimits.

Lemma buildBody_pipeline build w ss :
  SourceStrategy (Spec build) = Some ss ->
  wp (buildBody dockerSocket cgLimits)
     (fun _ s => exists c o,
        BuilderImage c = ref_Name (From ss)
        /\ opt_ContextDir o = "/tmp/dockercontext"
        /\ pipelineCalls c o build `sublist_of` st_trace s)
     (fun _ _ => True)
     (initialState build w).
Proof.
  intros Hss.
  set (S := fun s : State W => SourceStrategy (Spec (st_build s)) = Some ss).
  unfold buildBody, initialState. do 2 wp_step. rewrite Hss.
  apply wp_seq with (I := fun a s =>
    a = (negb (noOutputReference build), pushTagOf build) /\ S s).
  { unfold pushTagOf, noOutputReference. unfold_build. repeat wp_step.
    all: try exact Logic.I.
    all: split; [reflexivity | exact Hss]. }
  intros [push pushTag] s1 (Heq & Hs1). injection Heq as -> ->.
  apply wp_seq with (I := fun a s => BuilderImage (snd a) = ref_Name (From ss)).
  { unfold_build. repeat wp_step; try exact Logic.I.
    simpl. unfold S in Hs1. congruence. }
  intros [buildTag config] s2 Hc2. simpl in Hc2.
  wp_stage (fun _ : State W => True); [exact Logic.I .. | intros _ s3 _].
  apply wp_seq with (I := fun c s => BuilderImage c = ref_Name (From ss)).
  { unfold_build. repeat wp_step; try exact Logic.I; exact Hc2. }
  intros config' s4 Hc4.
  apply wp_seq with (I := fun c s => BuilderImage c = ref_Name (From ss)).
  { unfold_build. repeat wp_step; try exact Logic.I.
    all: simpl;
      repeat match goal with
             | |- context [if ?b then _ else _] => destruct b
             end; exact Hc4. }
  intros c s5 Hc.
  wp_stage (fun s : State W =>
    [EvValidateConfig c; EvBuilder c; EvBuilderBuild c] `sublist_of` st_trace s);
    [first [exact Logic.I | sublist_solve] .. | intros _ s6 Ht6].
  apply wp_seq with (I := fun _ s => exists o,
    [EvValidateConfig c; EvBuilder c; EvBuilderBuild c; EvBuildImage o]
      `sublist_of` st_trace s
    /\ opt_Name o = buildTag /\ opt_ContextDir o = "/tmp/dockercontext").
  { unfold_build. repeat wp_step; try exact Logic.I.
    all: eexists; split; [sublist_solve | split; reflexivity]. }
  intros _ s7 (o & Ht7 & Hname & Hdir).
  wp_stage (fun s : State W =>
    [EvValidateConfig c; EvBuilder c; EvBuilderBuild c; EvBuildImage o]
      `sublist_of` st_trace s);
    [first [exact Logic.I | sublist_solve] .. | intros cw s8 Ht8].
  unfold_build. repeat wp_step; try exact Logic.I.
  all: exists c, o; split; [exact Hc | split; [exact Hdir |]].
  all: unfold pipelineCalls.
  all: match goal with
       | Hpush : negb (noOutputReference ?b) = _ |- _ =>
           destruct (noOutputReference b); try discriminate Hpush
       end.
  all: rewrite ?Hname; sublist_solve.
Qed.

(** X17.  Lines 302-466.  A run of [Build] that returns normally has validated
    a configuration for the builder image of the request, created the S2I
    builder from it, run the assembly on it, then built the image from
    the context [/tmp/dockercontext] and, for a request with an output
    reference, then tagged the image just built with the push tag: these
    calls are in the trace in this order. *)
Theorem normal_return_calls (build : Build) (w : W) ss final :
  SourceStrategy (Spec build) = Some ss ->
  S2IBuilder_Build dockerSocket cgLimits build w = (Ok tt, final) ->
  exists c o,
    BuilderImage c = ref_Name (From ss)
    /\ opt_ContextDir o = "/tmp/dockercontext"
    /\ pipelineCalls c o build `sublist_of` st_trace final.
Proof.
  intros Hss. rewrite Build_unfold. intros Hrun.
  pose proof (buildBody_pipeline build w ss Hss) as Hwp. unfold wp in Hwp.
  destruct (buildBody dockerSocket cgLimits (initialState build w)) as [r s1].
  simpl in Hrun. injection Hrun as -> <-.
  destruct Hwp as (c & o & Hc & Hdir & Hsub). exists c, o.
  split; [exact Hc | split; [exact Hdir |]].
  cbn [afterDeferred st_trace]. apply sublist_inserts_r. exact Hsub.
Qed.

End PipelineFacts.

(** * Runs in the scripted world *)

Import Scripted.



Lemma scriptProxyConfig_resolution_witness :
  exists e,
    scriptProxyConfig
      [{| env_Name := "https_proxy"; env_Value := "proxy.local" |}] = (None, Some e).
Proof.
  destruct (scriptProxyConfig_resolution (docker := dockerClient registryDown)
              (factory := factory registryDown) (val := configValidator registryDown)
              (platform := platform registryDown)
              "unix:///var/run/docker.sock" None
              [{| env_Name := "https_proxy"; env_Value := "proxy.local" |}])
    as (_ & _ & _ & Herr).
  destruct (Herr "proxy.local") as (e & He & _).
  - right. reflexivity.
  - discriminate.
  - vm_compute. discriminate.
  - exists e. exact He.
Defined.

(** Only the two case forms are proxy variables: a name in mixed case is
    an ordinary variable. *)
Lemma mixed_case_name_is_no_proxy_variable :
  scriptProxyConfig
    [{| env_Name := "Http_Proxy"; env_Value := "http://proxy.local:3128" |}] = (None, None)
  /\ exists c,
       scriptProxyConfig
         [{| env_Name := "http_proxy"; env_Value := "http://proxy.local:3128" |}]
       = (Some c, None).
Proof. split; [reflexivity | eexists; reflexivity]. Qed.

(** ** Error status (C1) *)



(** The failure reason of the assembly is the reason of the build. *)
Lemma assembly_failure_reason_is_reported :
  let r := run (request None "" false false) cloneFails in
  fst r = Err SiteAssemble "exit status 1"
  /\ statusTriple (st_build (snd r)) = ("Failed", "FetchSourceFailed", "could not clone").
Proof. vm_compute. split; reflexivity. Qed.

(** ** Incremental fallback (C2) *)


(** ** Attestation registration (C3) *)

(** C3 on a run whose registration request cannot be sent: [Build]
    panics, and the digest of the pushed image is not in the status. *)
Theorem registration_transport_failure_panics :
  let r := run (request (outputTo "app:latest") "registry.local/demo/app:latest" false false)
               registrationUnreachable in
  fst r = Panic nilDereference
  /\ Output_To (Status (st_build (snd r))) = None
  /\ exists earlier body,
       st_trace (snd r)
       = (earlier ++ [EvHTTPPost registrationURL body; EvStatusUpdate (st_build (snd r))])%list.
Proof.
  vm_compute. split; [reflexivity | split; [reflexivity |]].
  eexists (_ :: _ :: _ :: _ :: _ :: _ :: _ :: _ :: _ :: _ :: []), _. reflexivity.
Qed.

(** A registration that is answered, here with a 500, is tolerated: the
    digest is recorded and [Build] returns normally. *)
Lemma registration_rejected_is_tolerated :
  let r := run (request (outputTo "app:latest") "registry.local/demo/app:latest" false false)
               registrationRejected in
  fst r = Ok tt
  /\ Output_To (Status (st_build (snd r))) = Some {| ImageDigest := "sha256:abc" |}.
Proof. vm_compute. split; reflexivity. Qed.

(** ** The request (C4) *)

(** C4, as stated, fails: after a successful pull of the previous output
    image the force-pull flag of the request is false. *)
Lemma Build_clears_ForcePull :
  let build := request (outputTo "app:latest") "registry.local/demo/app:latest" true true in
  let r := run build (allGood "demo/app-1:4f2a") in
  fst r = Ok tt
  /\ ForcePull <$> SourceStrategy (Spec build) = Some true
  /\ ForcePull <$> SourceStrategy (Spec (st_build (snd r))) = Some false
  /\ Spec (st_build (snd r)) <> Spec build.
Proof.
  vm_compute. split; [reflexivity | split; [reflexivity | split; [reflexivity |]]].
  discriminate.
Qed.

(** ** The push tag (C5) *)

(** C5, as stated, fails: the output reference of the request names
    [app:latest]; the image is tagged and pushed as the output image
    reference of the status. *)
Lemma push_tag_is_not_the_output_name :
  let build := request (outputTo "app:latest") "registry.local/demo/app:latest" false false in
  let r := run build (allGood "demo/app-1:4f2a") in
  fst r = Ok tt
  /\ ref_Name <$> To (Output (Spec build)) = Some "app:latest"
  /\ taggedAs (st_trace (snd r)) = ["registry.local/demo/app:latest"]
  /\ taggedAs (st_trace (snd r)) <> ["app:latest"].
Proof.
  vm_compute. split; [reflexivity | split; [reflexivity | split; [reflexivity |]]].
  discriminate.
Qed.

Lemma push_tag_derivation_witness :
  let r := run (request None "" false false) (allGood "demo/app-1:4f2a") in
  Forall notTagOrPush (st_trace (snd r))
  /\ OutputDockerImageReference (Status (st_build (snd r))) = "app-1".
Proof.
  cbv zeta.
  destruct (push_tag_derivation (docker := dockerClient (allGood "demo/app-1:4f2a"))
              (factory := factory (allGood "demo/app-1:4f2a")) (val := configValidator (allGood "demo/app-1:4f2a"))
              (platform := platform (allGood "demo/app-1:4f2a"))
              "unix:///var/run/docker.sock" None (request None "" false false) tt)
    as [Hnone _].
  destruct Hnone as [Htrace Hname]; [vm_compute; reflexivity |].
  split; [exact Htrace | apply Hname; discriminate].
Defined.

(** ** Assemble user and labels (C8, C9) *)

Lemma assemble_user_resolution_witness :
  assembleUserOf builderImage = "1001"
  /\ extractUser (" 1001 " +:+ ":" +:+ "0") = "1001".
Proof.
  destruct (assemble_user_resolution (docker := dockerClient registryDown) builderImage)
    as (Hdefault & _ & Hgroup & _).
  split.
  - rewrite Hdefault by reflexivity. reflexivity.
  - rewrite Hgroup by reflexivity. reflexivity.
Defined.

Lemma s2iBuildLabels_precedence_witness :
  s2iBuildLabels labelledRequest (Some checkedOut) !! "vendor" = Some "b"
  /\ s2iBuildLabels labelledRequest (Some checkedOut) !! commitRefLabel
     = Some "refs/pull/7/head".
Proof.
  destruct (s2iBuildLabels_precedence labelledRequest (Some checkedOut))
    as (Hoverride & Href & _).
  split.
  - apply Hoverride. reflexivity.
  - apply (Href {| Git_URI := "https://git.local/app.git"; Git_Ref := "refs/pull/7/head" |});
      [reflexivity | discriminate | reflexivity].
Defined.

(** ** The deferred status update (C10) *)

(** The earliest return: a build without source strategy. *)
Lemma Build_without_strategy :
  let r := S2IBuilder_Build (docker := dockerClient registryDown) (factory := factory registryDown)
             (val := configValidator registryDown) (platform := platform registryDown)
             "unix:///var/run/docker.sock" None labelledRequest tt in
  fst r = Err SiteSourceStrategy
            "the source to image builder must be used with the source strategy"
  /\ st_trace (snd r) = [EvStatusUpdate (st_build (snd r))].
Proof. vm_compute. split; reflexivity. Qed.

(** ** Further runs *)

Import Scenarios.


Lemma proxy_last_setting_counts_witness :
  proxyValues [ {| env_Name := "http_proxy"; env_Value := "http://a.local:3128" |};
                {| env_Name := "HTTP_PROXY"; env_Value := "http://b.local:3128" |} ]
  = ("http://b.local:3128", "").
Proof.
  destruct (proxy_last_setting_counts
              [ {| env_Name := "http_proxy"; env_Value := "http://a.local:3128" |} ]
              {| env_Name := "HTTP_PROXY"; env_Value := "http://b.local:3128" |})
    as (Hhttp & _).
  apply Hhttp. reflexivity.
Defined.

Lemma scriptProxyConfig_result_witness :
  scriptProxyConfig [ {| env_Name := "http_proxy"; env_Value := "http://a.local:3128" |} ]
  = (Some {| HTTPProxy := Some "http://a.local:3128"; HTTPSProxy := None |}, None).
Proof.
  pose proof (scriptProxyConfig_result
                [ {| env_Name := "http_proxy"; env_Value := "http://a.local:3128" |} ])
    as Hresult.
  cbv zeta in Hresult. destruct Hresult as (Hparsed & _).
  apply Hparsed.
  - left. vm_compute. discriminate.
  - right. vm_compute. reflexivity.
  - left. vm_compute. reflexivity.
Defined.

Lemma ReplaceAll_byte_removed_witness :
  GoStrings.ReplaceAll "/opt/app-root/src" "'" "" = "/opt/app-root/src".
Proof.
  destruct (ReplaceAll_byte_removed "/opt/app-root/src" "'"%char) as (_ & Hsame).
  apply Hsame. vm_compute. reflexivity.
Defined.

Lemma inspection_failures_witness :
  let s := initialState (request None "" false false) tt in
  fst (isImagePresent (docker := dockerClient registryDown) "builder:1" s) = Ok false
  /\ fst (getAssembleUser (docker := dockerClient registryDown) "builder:1" s)
     = Ok ("", Some "no such image: builder:1").
Proof.
  cbv zeta.
  destruct (inspection_failures (docker := dockerClient registryDown)
              (platform := platform registryDown)
              "builder:1" (initialState (request None "" false false) tt)
              None (Some "no such image: builder:1") tt)
    as (Herr & _).
  - vm_compute. reflexivity.
  - destruct (Herr "no such image: builder:1") as (Hpresent & Huser & _).
    + reflexivity.
    + split; [exact Hpresent | exact Huser].
Defined.

Lemma Build_without_source_strategy_witness :
  let r := run labelledRequest registryDown in
  st_trace (snd r) = [EvStatusUpdate (st_build (snd r))]
  /\ Status (st_build (snd r)) = Status labelledRequest.
Proof.
  cbv zeta.
  pose proof (Build_without_source_strategy (docker := dockerClient registryDown)
                (factory := factory registryDown) (val := configValidator registryDown)
                (platform := platform registryDown)
                "unix:///var/run/docker.sock" None labelledRequest tt) as Hrun.
  cbv zeta in Hrun. destruct Hrun as (_ & Htrace & Hbuild).
  - reflexivity.
  - split; [exact Htrace |]. unfold run. rewrite Hbuild. vm_compute. reflexivity.
Defined.



Lemma no_pull_when_images_present_witness :
  let r := run (request (outputTo "app:latest") "registry.local/demo/app:latest" true false)
               (allGood "demo/app-1:4f2a") in
  Forall notPull (st_trace (snd r))
  /\ SourceStrategy (Spec (st_build (snd r))) = Some (strategyOf true false).
Proof.
  cbv zeta.
  apply (no_pull_when_images_present (docker := dockerClient (allGood "demo/app-1:4f2a"))
           (factory := factory (allGood "demo/app-1:4f2a"))
           (val := configValidator (allGood "demo/app-1:4f2a"))
           (platform := platform (allGood "demo/app-1:4f2a"))
           "unix:///var/run/docker.sock" None
           (request (outputTo "app:latest") "registry.local/demo/app:latest" true false) tt
           (strategyOf true false)).
  - reflexivity.
  - reflexivity.
  - intros imageTag []. vm_compute. reflexivity.
Defined.

Lemma digest_recorded_only_on_success_witness :
  Output_To (Status (st_build (snd (run (request (outputTo "app:latest")
                                           "registry.local/demo/app:latest" false false)
                                        engineFails)))) = None.
Proof.
  pose proof (digest_recorded_only_on_success (docker := dockerClient engineFails)
                (factory := factory engineFails) (val := configValidator engineFails)
                (platform := platform engineFails)
                "unix:///var/run/docker.sock" None
                (request (outputTo "app:latest") "registry.local/demo/app:latest" false false)
                tt) as Hrun.
  cbv zeta in Hrun. destruct Hrun as (Hkept & _).
  apply Hkept. vm_compute. discriminate.
Defined.


Lemma failed_steps_are_timed_witness :
  let r := run (request None "" false false) registryDown in
  r = (Err SitePullBaseImage "unable to pull builder:1", snd r)
  /\ exists stages,
       timedFailure SitePullBaseImage stages
       /\ Stages (Status (st_build (snd r))) = AppendStageAndStepInfo [] stages.
Proof.
  cbv zeta. split; [vm_compute; reflexivity |].
  apply (failed_steps_are_timed (docker := dockerClient registryDown)
           (factory := factory registryDown) (val := configValidator registryDown)
           (platform := platform registryDown)
           "unix:///var/run/docker.sock" None (request None "" false false) tt
           SitePullBaseImage "unable to pull builder:1").
  vm_compute. reflexivity.
Defined.

Lemma engine_build_options_witness :
  Forall (engineBuildCall None false)
    (st_trace (snd (run (request None "" false false) registrationRejected))).
Proof.
  apply (engine_build_options (docker := dockerClient registrationRejected)
           (factory := factory registrationRejected)
           (val := configValidator registrationRejected)
           (platform := platform registrationRejected)
           "unix:///var/run/docker.sock" None (request None "" false false) tt
           (strategyOf false false)).
  reflexivity.
Defined.

Lemma incremental_pull_success_stays_incremental_witness :
  Forall (incrementalCall "registry.local/demo/app:latest")
    (st_trace (snd (run (request (outputTo "app:latest") "registry.local/demo/app:latest"
                           true true)
                        (allGood "demo/app-1:4f2a")))).
Proof.
  apply (incremental_pull_success_stays_incremental
           (docker := dockerClient (allGood "demo/app-1:4f2a"))
           (factory := factory (allGood "demo/app-1:4f2a"))
           (val := configValidator (allGood "demo/app-1:4f2a"))
           (platform := platform (allGood "demo/app-1:4f2a"))
           "unix:///var/run/docker.sock" None
           (request (outputTo "app:latest") "registry.local/demo/app:latest" true true) tt
           (strategyOf true true)).
  - reflexivity.
  - reflexivity.
  - left. reflexivity.
  - intros searchPaths []. vm_compute. reflexivity.
Defined.

Lemma normal_return_calls_witness :
  let build := request (outputTo "app:latest") "registry.local/demo/app:latest" false false in
  let r := run build (allGood "demo/app-1:4f2a") in
  r = (Ok tt, snd r)
  /\ exists c o,
       BuilderImage c = "builder:1"
       /\ opt_ContextDir o = "/tmp/dockercontext"
       /\ pipelineCalls c o build `sublist_of` st_trace (snd r).
Proof.
  cbv zeta. split; [vm_compute; reflexivity |].
  apply (normal_return_calls (docker := dockerClient (allGood "demo/app-1:4f2a"))
           (factory := factory (allGood "demo/app-1:4f2a"))
           (val := configValidator (allGood "demo/app-1:4f2a"))
           (platform := platform (allGood "demo/app-1:4f2a"))
           "unix:///var/run/docker.sock" None
           (request (outputTo "app:latest") "registry.local/demo/app:latest" false false) tt
           (strategyOf false false)).
  - reflexivity.
  - vm_compute. reflexivity.
Defined.
